(** * CodeQL permission validator

    A shallow embedding of [validate_codeql_permissions] from
    [.github/scripts/validate-codeql-permissions.py], together with the
    properties of its specification.

    The function walks the value that [yaml.safe_load] returns, using only a
    handful of Python operations ([in], subscripting, [.get], [.items],
    iteration, [isinstance], [==], truthiness).  The first part of the file
    gives these operations their Python meaning on the values a workflow file
    parses to: null, booleans, integers, strings, sequences and mappings with
    scalar keys.  (Floats, timestamps, binary scalars and sets are not part of
    the model.)  Operations that Python rejects at run time return the
    exception they raise. *)

From Stdlib Require Import ZArith List String Ascii Bool DecimalString.
Import ListNotations.
Local Open Scope string_scope.
Local Open Scope list_scope.
Set Warnings "-register-all".

(** ** Python values and exceptions *)

Module Py.

(** Hashable scalars: the possible keys of a mapping. *)
Inductive scalar : Type :=
| SNone
| SBool (b : bool)
| SInt (z : Z)
| SStr (s : string).

(** A parsed document.  A mapping keeps its items in insertion order. *)
Inductive value : Type :=
| VScalar (s : scalar)
| VList (l : list value)
| VDict (d : list (scalar * value)).

Definition VNone : value := VScalar SNone.
Definition VStr (s : string) : value := VScalar (SStr s).

Inductive exn : Type :=
| TypeError
| AttributeError
| KeyError
| IndexError.

(** Outcome of a computation that may raise. *)
Inductive res (A : Type) : Type :=
| Ok (a : A)
| Raise (e : exn).

Arguments Ok {A} a.
Arguments Raise {A} e.

Definition bind {A B : Type} (m : res A) (k : A -> res B) : res B :=
  match m with
  | Ok a => k a
  | Raise e => Raise e
  end.

(** *** Strings *)

(** [needle in hay] for two strings. *)
Fixpoint is_substring (needle hay : string) : bool :=
  prefix needle hay ||
  match hay with
  | EmptyString => false
  | String _ rest => is_substring needle rest
  end.

(** Iterating a string yields its characters as one-character strings. *)
Fixpoint chars (s : string) : list string :=
  match s with
  | EmptyString => []
  | String c rest => String c EmptyString :: chars rest
  end.

(** *** Equality *)

(** A boolean is an integer in Python: [True == 1] and [False == 0]. *)
Definition as_int (k : scalar) : option Z :=
  match k with
  | SBool b => Some (if b then 1%Z else 0%Z)
  | SInt z => Some z
  | _ => None
  end.

(** [a == b] on scalars; this is also the equality of mapping keys. *)
Definition scalar_eqb (a b : scalar) : bool :=
  match a, b with
  | SNone, SNone => true
  | SStr s, SStr t => String.eqb s t
  | _, _ =>
      match as_int a, as_int b with
      | Some x, Some y => Z.eqb x y
      | _, _ => false
      end
  end.

(** [v == s] where [s] is a string. *)
Definition eq_str (v : value) (s : string) : bool :=
  match v with
  | VScalar k => scalar_eqb k (SStr s)
  | _ => false
  end.

(** *** Mappings *)

Fixpoint dict_lookup (k : scalar) (d : list (scalar * value)) : option value :=
  match d with
  | [] => None
  | (k', v) :: rest => if scalar_eqb k' k then Some v else dict_lookup k rest
  end.

Definition dict_mem (k : scalar) (d : list (scalar * value)) : bool :=
  match dict_lookup k d with
  | Some _ => true
  | None => false
  end.

(** No two keys of a mapping are equal: the invariant of every Python
    [dict]. *)
Fixpoint unique_keys (d : list (scalar * value)) : bool :=
  match d with
  | [] => true
  | (k, _) :: rest => negb (dict_mem k rest) && unique_keys rest
  end.

(** *** Operations *)

(** [bool(v)]. *)
Definition truthy (v : value) : bool :=
  match v with
  | VScalar SNone => false
  | VScalar (SBool b) => b
  | VScalar (SInt z) => negb (Z.eqb z 0)
  | VScalar (SStr s) => negb (String.eqb s "")
  | VList l => negb (Nat.eqb (List.length l) 0)
  | VDict d => negb (Nat.eqb (List.length d) 0)
  end.

(** [isinstance(v, dict)]. *)
Definition isinstance_dict (v : value) : bool :=
  match v with
  | VDict _ => true
  | _ => false
  end.

(** [item in container] for a string [item]: substring test on a string,
    element test on a sequence, key test on a mapping, [TypeError] on
    anything else. *)
Definition py_in (item : string) (container : value) : res bool :=
  match container with
  | VScalar (SStr s) => Ok (is_substring item s)
  | VList l => Ok (existsb (fun x => eq_str x item) l)
  | VDict d => Ok (dict_mem (SStr item) d)
  | VScalar _ => Raise TypeError
  end.

(** Position [i] of a sequence of length [n], counting from the end when
    negative. *)
Definition seq_index (i : Z) (n : nat) : option nat :=
  let len := Z.of_nat n in
  if ((0 <=? i) && (i <? len))%Z then Some (Z.to_nat i)
  else if ((- len <=? i) && (i <? 0))%Z then Some (Z.to_nat (len + i))
  else None.

(** [obj[key]]. *)
Definition py_getitem (obj : value) (key : scalar) : res value :=
  match obj with
  | VDict d =>
      match dict_lookup key d with
      | Some v => Ok v
      | None => Raise KeyError
      end
  | VList l =>
      match as_int key with
      | Some i =>
          match seq_index i (List.length l) with
          | Some n =>
              match nth_error l n with
              | Some v => Ok v
              | None => Raise IndexError
              end
          | None => Raise IndexError
          end
      | None => Raise TypeError
      end
  | VScalar (SStr s) =>
      match as_int key with
      | Some i =>
          match seq_index i (String.length s) with
          | Some n =>
              match nth_error (chars s) n with
              | Some c => Ok (VStr c)
              | None => Raise IndexError
              end
          | None => Raise IndexError
          end
      | None => Raise TypeError
      end
  | VScalar _ => Raise TypeError
  end.

(** [obj.get(key, default)]: only a mapping has the method. *)
Definition py_get (obj : value) (key : string) (default : value) : res value :=
  match obj with
  | VDict d =>
      match dict_lookup (SStr key) d with
      | Some v => Ok v
      | None => Ok default
      end
  | _ => Raise AttributeError
  end.

(** [obj.items()]: only a mapping has the method. *)
Definition py_items (obj : value) : res (list (scalar * value)) :=
  match obj with
  | VDict d => Ok d
  | _ => Raise AttributeError
  end.

(** The elements [for x in obj] visits: the elements of a sequence, the keys
    of a mapping, the characters of a string. *)
Definition py_iter (obj : value) : res (list value) :=
  match obj with
  | VList l => Ok l
  | VDict d => Ok (map (fun kv => VScalar (fst kv)) d)
  | VScalar (SStr s) => Ok (map VStr (chars s))
  | VScalar _ => Raise TypeError
  end.

End Py.

Import Py.

Notation "x <- m ;; k" := (bind m (fun x => k))
  (at level 61, m at next level, right associativity).

(** ** The validator *)

Definition ANALYZE_ACTION : string := "github/codeql-action/analyze".

Definition ROOT_VIOLATION : string :=
  "VIOLATION: Root-level permissions include 'security-events: write'. " ++
  "This permission should be defined at the job-level for jobs using CodeQL analyze.".

Section Validator.

(** Python's rendering [f"{v}"] of a value inside a formatted string.  It is
    the identity on strings; the validator does not depend on what it does on
    other values, so it is left as a parameter. *)
Variable format : value -> string.

Definition improper_violation (job_name : scalar) : string :=
  "VIOLATION: Job '" ++ format (VScalar job_name) ++
  "' does not have proper permissions configuration".

Definition lacks_violation (job_name : scalar) : string :=
  "VIOLATION: Job '" ++ format (VScalar job_name) ++
  "' uses CodeQL analyze but lacks 'security-events' permission".

Definition parse_violation (e : string) : string :=
  "Failed to parse YAML: " ++ e.

Definition mismatch_violation (job_name : scalar) (actual : value) : string :=
  "VIOLATION: Job '" ++ format (VScalar job_name) ++
  "' has 'security-events: " ++ format actual ++ "' " ++
  "but should be 'security-events: write'".

(** Lines 46-47: does this step use the analyze action? *)
Definition step_uses_analyze (step : value) : res bool :=
  if isinstance_dict step then
    has_uses <- py_in "uses" step ;;
    if has_uses then
      uses <- py_getitem step (SStr "uses") ;;
      py_in ANALYZE_ACTION uses
    else Ok false
  else Ok false.

(** Lines 45-49: the loop over the steps of one job; the first matching step
    appends the job name and leaves the loop. *)
Fixpoint scan_steps (job_name : scalar) (steps : list value)
    (codeql_analyze_jobs : list scalar) : res (list scalar) :=
  match steps with
  | [] => Ok codeql_analyze_jobs
  | step :: rest =>
      hit <- step_uses_analyze step ;;
      if hit then Ok (codeql_analyze_jobs ++ [job_name])
      else scan_steps job_name rest codeql_analyze_jobs
  end.

(** Lines 44-49: one iteration of the loop over the jobs. *)
Definition scan_job (job_name : scalar) (job_config : value)
    (codeql_analyze_jobs : list scalar) : res (list scalar) :=
  has_steps <- py_in "steps" job_config ;;
  if has_steps then
    steps <- py_getitem job_config (SStr "steps") ;;
    elements <- py_iter steps ;;
    scan_steps job_name elements codeql_analyze_jobs
  else Ok codeql_analyze_jobs.

(** Lines 43-49: the loop over [workflow['jobs'].items()]. *)
Fixpoint scan_jobs (items : list (scalar * value))
    (codeql_analyze_jobs : list scalar) : res (list scalar) :=
  match items with
  | [] => Ok codeql_analyze_jobs
  | (job_name, job_config) :: rest =>
      found <- scan_job job_name job_config codeql_analyze_jobs ;;
      scan_jobs rest found
  end.

(** Lines 56-62: the root-level check. *)
Definition check_root (workflow : value) (violations : list string)
  : res (list string) :=
  root_permissions <- py_get workflow "permissions" (VDict []) ;;
  if isinstance_dict root_permissions then
    has <- py_in "security-events" root_permissions ;;
    if has then
      granted <- py_getitem root_permissions (SStr "security-events") ;;
      if eq_str granted "write" then Ok (violations ++ [ROOT_VIOLATION])
      else Ok violations
    else Ok violations
  else Ok violations.

(** Lines 66-83: one iteration of the loop over the CodeQL jobs. *)
Definition check_job (workflow : value) (job_name : scalar)
    (violations : list string) : res (list string) :=
  jobs <- py_getitem workflow (SStr "jobs") ;;
  job_config <- py_getitem jobs job_name ;;
  job_permissions <- py_get job_config "permissions" (VDict []) ;;
  if negb (isinstance_dict job_permissions) then
    Ok (violations ++ [improper_violation job_name])
  else
    has <- py_in "security-events" job_permissions ;;
    if negb has then Ok (violations ++ [lacks_violation job_name])
    else
      actual <- py_getitem job_permissions (SStr "security-events") ;;
      if negb (eq_str actual "write") then
        Ok (violations ++ [mismatch_violation job_name actual])
      else Ok violations.

(** Lines 65-83. *)
Fixpoint check_jobs (workflow : value) (codeql_analyze_jobs : list scalar)
    (violations : list string) : res (list string) :=
  match codeql_analyze_jobs with
  | [] => Ok violations
  | job_name :: rest =>
      violations' <- check_job workflow job_name violations ;;
      check_jobs workflow rest violations'
  end.

(** Line 37: [not workflow or 'jobs' not in workflow]. *)
Definition no_jobs (workflow : value) : res bool :=
  if negb (truthy workflow) then Ok true
  else has <- py_in "jobs" workflow ;; Ok (negb has).

(** Lines 37-85: the validation of a loaded document, started with the
    violations collected so far. *)
Definition validate_from (workflow : value) (violations : list string)
  : res (bool * list string) :=
  skip <- no_jobs workflow ;;
  if skip then Ok (true, violations)
  else
    jobs <- py_getitem workflow (SStr "jobs") ;;
    items <- py_items jobs ;;
    codeql_analyze_jobs <- scan_jobs items [] ;;
    if Nat.eqb (List.length codeql_analyze_jobs) 0 then Ok (true, violations)
    else
      violations <- check_root workflow violations ;;
      violations <- check_jobs workflow codeql_analyze_jobs violations ;;
      Ok (Nat.eqb (List.length violations) 0, violations).

(** The specification's [validate]: the function on a loaded document. *)
Definition validate (workflow : value) : res (bool * list string) :=
  validate_from workflow [].

(** Lines 28-85.  Opening and parsing the file is the caller-visible effect;
    its outcome is the argument: the loaded document, or the text of the
    exception that [open] or [yaml.safe_load] raised. *)
Definition validate_codeql_permissions (loaded : string + value)
  : res (bool * list string) :=
  let violations : list string := [] in
  match loaded with
  | inl e => Ok (false, violations ++ [parse_violation e])
  | inr workflow => validate_from workflow violations
  end.

End Validator.

(** ** Closed forms on mappings

    What the two checks append when the objects they inspect are mappings. *)

Section Findings.

Variable format : value -> string.

(** Lines 56-62 for a root mapping [wd]. *)
Definition root_findings (wd : list (scalar * value)) : list string :=
  match dict_lookup (SStr "permissions") wd with
  | Some (VDict pd) =>
      match dict_lookup (SStr "security-events") pd with
      | Some granted => if eq_str granted "write" then [ROOT_VIOLATION] else []
      | None => []
      end
  | _ => []
  end.

(** Lines 67-83 for a job whose body is the mapping [cd]. *)
Definition job_findings (job_name : scalar) (cd : list (scalar * value))
  : list string :=
  match dict_lookup (SStr "permissions") cd with
  | None => [lacks_violation format job_name]
  | Some (VDict pd) =>
      match dict_lookup (SStr "security-events") pd with
      | None => [lacks_violation format job_name]
      | Some actual =>
          if eq_str actual "write" then []
          else [mismatch_violation format job_name actual]
      end
  | Some _ => [improper_violation format job_name]
  end.

(** Line 85: the returned pair. *)
Definition verdict (violations : list string) : bool * list string :=
  (Nat.eqb (List.length violations) 0, violations).

End Findings.

(** *** The scan and the checks, job by job *)

(** Does the scan of this job on its own record it (lines 44-49)? *)
Definition records (item : scalar * value) : bool :=
  match scan_job (fst item) (snd item) [] with
  | Ok (_ :: _) => true
  | _ => false
  end.

(** What lines 66-83 append for the job [job_name] of the jobs [jd]. *)
Definition recorded_findings (format : value -> string)
    (jd : list (scalar * value)) (job_name : scalar) : list string :=
  match dict_lookup job_name jd with
  | Some (VDict cd) => job_findings format job_name cd
  | _ => []
  end.

(** Does the job [job_name] of [jd] declare [security-events: write] in a
    [permissions] mapping of its own? *)
Definition grants_write (jd : list (scalar * value)) (job_name : scalar) : bool :=
  match dict_lookup job_name jd with
  | Some (VDict cd) =>
      match dict_lookup (SStr "permissions") cd with
      | Some (VDict pd) =>
          match dict_lookup (SStr "security-events") pd with
          | Some granted => eq_str granted "write"
          | None => false
          end
      | _ => false
      end
  | _ => false
  end.

(** ** The documents of the data model

    The specification describes a workflow document as a mapping whose
    [jobs] maps job names to mappings, whose [steps] are sequences and whose
    [uses] are strings.  The predicates below say so, and leave everything
    else free: the [permissions] at either level may be any value, a step may
    be any value, and an empty or absent document is accepted. *)

Definition step_shape_ok (step : value) : bool :=
  match step with
  | VDict sd =>
      match dict_lookup (SStr "uses") sd with
      | None => true
      | Some (VScalar (SStr _)) => true
      | Some _ => false
      end
  | _ => true
  end.

Definition job_shape_ok (job_config : value) : bool :=
  match job_config with
  | VDict cd =>
      match dict_lookup (SStr "steps") cd with
      | None => true
      | Some (VList steps) => forallb step_shape_ok steps
      | Some _ => false
      end
  | _ => false
  end.

Definition shape_ok (workflow : value) : bool :=
  match workflow with
  | VDict wd =>
      match dict_lookup (SStr "jobs") wd with
      | None => true
      | Some (VDict jd) => forallb (fun item => job_shape_ok (snd item)) jd
      | Some _ => false
      end
  | _ => negb (truthy workflow)
  end.

(** The items of the [jobs] mapping of a document, if it has one. *)
Definition jobs_of (workflow : value) : list (scalar * value) :=
  match workflow with
  | VDict wd =>
      match dict_lookup (SStr "jobs") wd with
      | Some (VDict jd) => jd
      | _ => []
      end
  | _ => []
  end.

(** A document of the data model, with the job names pairwise different as
    in every Python [dict]. *)
Definition well_formed (workflow : value) : bool :=
  shape_ok workflow && unique_keys (jobs_of workflow).

(** *** The classification in the specification's words

    A step is a CodeQL-analyze step when it is a mapping whose [uses] is a
    string that contains the action's name; a job is a CodeQL-analyze job
    when one of its steps is. *)

Definition spec_analyze_step (step : value) : bool :=
  match step with
  | VDict sd =>
      match dict_lookup (SStr "uses") sd with
      | Some (VScalar (SStr uses)) => is_substring ANALYZE_ACTION uses
      | _ => false
      end
  | _ => false
  end.

Definition spec_codeql_job (job_config : value) : bool :=
  match job_config with
  | VDict cd =>
      match dict_lookup (SStr "steps") cd with
      | Some (VList steps) => existsb spec_analyze_step steps
      | _ => false
      end
  | _ => false
  end.

Definition spec_has_codeql_job (workflow : value) : bool :=
  existsb (fun item => spec_codeql_job (snd item)) (jobs_of workflow).

(** ** The function as statements acting on a state

    The same lines again, this time as the statements they are: each acts on
    a state that holds the caller's document and the two lists the function
    fills.  The lists are part of the state, with whatever an earlier
    invocation left in them, so that a dependence of the result on anything
    but the document, or a write to the document, would show. *)

Module Stateful.

Record state : Type := mkState {
  workflow : value;
  violations : list string;
  codeql_analyze_jobs : list scalar
}.

(** A statement: it changes the state and returns or raises. *)
Definition M (A : Type) : Type := state -> res A * state.

Definition ret {A : Type} (a : A) : M A := fun s => (Ok a, s).

Definition seq {A B : Type} (m : M A) (k : A -> M B) : M B :=
  fun s =>
    match m s with
    | (Ok a, s') => k a s'
    | (Raise e, s') => (Raise e, s')
    end.

(** An expression: it reads nothing and writes nothing. *)
Definition eval {A : Type} (r : res A) : M A := fun s => (r, s).

Definition read_workflow : M value := fun s => (Ok (workflow s), s).
Definition read_violations : M (list string) := fun s => (Ok (violations s), s).
Definition read_codeql_analyze_jobs : M (list scalar) :=
  fun s => (Ok (codeql_analyze_jobs s), s).

(** [violations = []] and [violations.append(msg)]. *)
Definition new_violations : M unit :=
  fun s => (Ok tt, mkState (workflow s) [] (codeql_analyze_jobs s)).
Definition append_violation (msg : string) : M unit :=
  fun s => (Ok tt, mkState (workflow s) (violations s ++ [msg])
                           (codeql_analyze_jobs s)).

(** [codeql_analyze_jobs = []] and [codeql_analyze_jobs.append(job_name)]. *)
Definition new_codeql_analyze_jobs : M unit :=
  fun s => (Ok tt, mkState (workflow s) (violations s) []).
Definition append_job (job_name : scalar) : M unit :=
  fun s => (Ok tt, mkState (workflow s) (violations s)
                           (codeql_analyze_jobs s ++ [job_name])).

Notation "x <~ m ;; k" := (seq m (fun x => k))
  (at level 61, m at next level, right associativity).
Notation "m ;;; k" := (seq m (fun _ => k))
  (at level 61, right associativity).

Section Statements.

Variable format : value -> string.

(** Lines 45-49. *)
Fixpoint scan_steps (job_name : scalar) (steps : list value) : M unit :=
  match steps with
  | [] => ret tt
  | step :: rest =>
      hit <~ eval (step_uses_analyze step) ;;
      if hit then append_job job_name else scan_steps job_name rest
  end.

(** Lines 44-49. *)
Definition scan_job (job_name : scalar) (job_config : value) : M unit :=
  has_steps <~ eval (py_in "steps" job_config) ;;
  if has_steps then
    steps <~ eval (py_getitem job_config (SStr "steps")) ;;
    elements <~ eval (py_iter steps) ;;
    scan_steps job_name elements
  else ret tt.

(** Lines 43-49. *)
Fixpoint scan_jobs (items : list (scalar * value)) : M unit :=
  match items with
  | [] => ret tt
  | (job_name, job_config) :: rest =>
      scan_job job_name job_config ;;; scan_jobs rest
  end.

(** Lines 56-62. *)
Definition check_root : M unit :=
  w <~ read_workflow ;;
  root_permissions <~ eval (py_get w "permissions" (VDict [])) ;;
  if isinstance_dict root_permissions then
    has <~ eval (py_in "security-events" root_permissions) ;;
    if has then
      granted <~ eval (py_getitem root_permissions (SStr "security-events")) ;;
      if eq_str granted "write" then append_violation ROOT_VIOLATION
      else ret tt
    else ret tt
  else ret tt.

(** Lines 66-83. *)
Definition check_job (job_name : scalar) : M unit :=
  w <~ read_workflow ;;
  jobs <~ eval (py_getitem w (SStr "jobs")) ;;
  job_config <~ eval (py_getitem jobs job_name) ;;
  job_permissions <~ eval (py_get job_config "permissions" (VDict [])) ;;
  if negb (isinstance_dict job_permissions) then
    append_violation (improper_violation format job_name)
  else
    has <~ eval (py_in "security-events" job_permissions) ;;
    if negb has then append_violation (lacks_violation format job_name)
    else
      actual <~ eval (py_getitem job_permissions (SStr "security-events")) ;;
      if negb (eq_str actual "write") then
        append_violation (mismatch_violation format job_name actual)
      else ret tt.

(** Lines 65-83. *)
Fixpoint check_jobs (names : list scalar) : M unit :=
  match names with
  | [] => ret tt
  | job_name :: rest => check_job job_name ;;; check_jobs rest
  end.

(** Lines 28 and 37-85, on the document held in the state. *)
Definition validate : M (bool * list string) :=
  new_violations ;;;
  w <~ read_workflow ;;
  skip <~ eval (no_jobs w) ;;
  if skip then (found <~ read_violations ;; ret (true, found))
  else
    jobs <~ eval (py_getitem w (SStr "jobs")) ;;
    items <~ eval (py_items jobs) ;;
    new_codeql_analyze_jobs ;;;
    scan_jobs items ;;;
    names <~ read_codeql_analyze_jobs ;;
    if Nat.eqb (List.length names) 0 then
      (found <~ read_violations ;; ret (true, found))
    else
      check_root ;;;
      check_jobs names ;;;
      found <~ read_violations ;;
      ret (Nat.eqb (List.length found) 0, found).

End Statements.

End Stateful.

(** ** The driver

    [main] (lines 88-147) looks at the world through the file system and
    speaks through [print] and [sys.exit].  What it reads is its argument
    here: the text of the workflows directory, whether the directory exists,
    and the workflow files in the order [sorted] puts them, each with the
    outcome of every read the loop makes of it.  What it prints is returned
    as the list of printed lines, with the way the run ends. *)

Module Driver.

Record workflow_file : Type := mkFile {
  (** the text of [relative_path] *)
  relative_path : string;
  (** line 111: what [open] and [yaml.safe_load] give the validator *)
  loaded : string + value;
  (** lines 115-116: the text read, or [None] when reading raises *)
  content : option string;
  (** line 130: the text read by the second [open(...).read()] *)
  content_again : option string
}.

(** An exception that leaves [main]: one raised by the validator, or the
    one raised by the unguarded read of line 130. *)
Inductive error : Type :=
| ValidatorError (e : exn)
| ReadError.

Inductive ending : Type :=
| Exit (code : Z)
| Uncaught (e : error).

(** The lines printed so far and the two counters. *)
Record progress : Type := mkProgress {
  printed : list string;
  total_violations : nat;
  workflows_with_codeql : nat
}.

Definition print (line : string) (p : progress) : progress :=
  mkProgress (printed p ++ [line]) (total_violations p) (workflows_with_codeql p).

(** [f"{n}"] for a count. *)
Definition show_count (n : nat) : string :=
  NilZero.string_of_uint (Nat.to_uint n).

(** [s * n]. *)
Fixpoint string_mul (s : string) (n : nat) : string :=
  match n with
  | O => EmptyString
  | S n' => (s ++ string_mul s n')%string
  end.

Definition violation_line (violation : string) : string :=
  "   ❌ " ++ violation.

Definition configured_line : string :=
  "   ✅ CodeQL permissions correctly configured".

(** Line 96. *)
Definition missing_directory_line (workflows_dir : string) : string :=
  "❌ ERROR: Workflows directory not found: " ++ workflows_dir.

(** Lines 114-123: the status line of a file. *)
Definition report_status (file : workflow_file) (p : progress) : progress :=
  match content file with
  | Some text =>
      if is_substring ANALYZE_ACTION text then
        print ("📋 " ++ relative_path file ++ " (contains CodeQL analyze)")
          (mkProgress (printed p) (total_violations p)
             (workflows_with_codeql p + 1))
      else print ("📄 " ++ relative_path file) p
  | None => print ("❌ " ++ relative_path file ++ " (error reading file)") p
  end.

(** Lines 127-128. *)
Fixpoint print_violations (violations : list string) (p : progress) : progress :=
  match violations with
  | [] => p
  | violation :: rest => print_violations rest (print (violation_line violation) p)
  end.

(** Lines 125-131: the violations of a file, or the confirmation line. *)
Definition report_violations (file : workflow_file) (violations : list string)
    (p : progress) : progress * option error :=
  if negb (Nat.eqb (List.length violations) 0) then
    (print_violations violations
       (mkProgress (printed p)
          (total_violations p + List.length violations)
          (workflows_with_codeql p)),
     None)
  else if Nat.ltb 0 (workflows_with_codeql p) then
    match content_again file with
    | Some text =>
        if is_substring ANALYZE_ACTION text then (print configured_line p, None)
        else (p, None)
    | None => (p, Some ReadError)
    end
  else (p, None).

Section Main.

Variable format : value -> string.

(** Lines 109-133: one iteration of the loop over the files. *)
Definition report_file (file : workflow_file) (p : progress)
  : progress * option error :=
  match validate_codeql_permissions format (loaded file) with
  | Raise e => (p, Some (ValidatorError e))
  | Ok (is_valid, violations) =>
      match report_violations file violations (report_status file p) with
      | (p', None) => (print "" p', None)
      | (p', Some e) => (p', Some e)
      end
  end.

(** Lines 108-133. *)
Fixpoint report_files (files : list workflow_file) (p : progress)
  : progress * option error :=
  match files with
  | [] => (p, None)
  | file :: rest =>
      match report_file file p with
      | (p', None) => report_files rest p'
      | (p', Some e) => (p', Some e)
      end
  end.

(** Lines 102-106: the heading and the counters at zero. *)
Definition heading (workflow_files : list workflow_file) : progress :=
  print ""
    (print ("🔍 Validating CodeQL permissions in " ++
            show_count (List.length workflow_files) ++ " workflow files...")
       (mkProgress [] 0 0)).

(** Lines 136-140. *)
Definition summary (workflow_files : list workflow_file) (p : progress)
  : progress :=
  print ("   • Total violations found: " ++ show_count (total_violations p))
    (print ("   • Workflows with CodeQL analyze: " ++
            show_count (workflows_with_codeql p))
       (print ("   • Total workflow files: " ++
               show_count (List.length workflow_files))
          (print "📊 VALIDATION SUMMARY:"
             (print (string_mul "=" 70) p)))).

(** Lines 88-147. *)
Definition main (workflows_dir : string) (dir_exists : bool)
    (workflow_files : list workflow_file) : list string * ending :=
  if negb dir_exists then
    ([missing_directory_line workflows_dir], Exit 1)
  else
    match report_files workflow_files (heading workflow_files) with
    | (p, Some e) => (printed p, Uncaught e)
    | (p, None) =>
        let p := summary workflow_files p in
        if Nat.eqb (total_violations p) 0 then
          (printed
             (print "   ✅ All CodeQL workflows have correct permissions configuration!" p),
           Exit 0)
        else
          (printed (print "   ❌ Found violations that need to be fixed!" p),
           Exit 1)
    end.

(** The violations the validator returns for a file; none when it raises. *)
Definition violations_of (file : workflow_file) : list string :=
  match validate_codeql_permissions format (loaded file) with
  | Ok (_, violations) => violations
  | Raise _ => []
  end.

End Main.

(** The files whose text, as read at lines 115-116, names the analyze
    action. *)
Definition mentions_codeql (file : workflow_file) : bool :=
  match content file with
  | Some text => is_substring ANALYZE_ACTION text
  | None => false
  end.

End Driver.

(** ** Sample documents *)

Module Sample.

(** A rendering for the examples: Python's [str] on the scalars.  No example
    renders a sequence or a mapping; they are shown by a placeholder. *)
Definition format (v : value) : string :=
  match v with
  | VScalar SNone => "None"
  | VScalar (SBool true) => "True"
  | VScalar (SBool false) => "False"
  | VScalar (SInt z) => NilZero.string_of_int (Z.to_int z)
  | VScalar (SStr s) => s
  | VList _ => "[...]"
  | VDict _ => "{...}"
  end.

Definition step (uses : string) : value := VDict [(SStr "uses", VStr uses)].

(** The steps of the end-to-end scenarios of the specification. *)
Definition steps : value :=
  VList [step "actions/checkout@v4"; step "github/codeql-action/analyze@v3"].

(** A workflow with the single job [scan] and the given root and job
    entries next to [jobs] and [steps]. *)
Definition jobs (job_entries : list (scalar * value))
  : list (scalar * value) :=
  [(SStr "scan", VDict ((SStr "steps", steps) :: job_entries))].

Definition workflow_entries (root_entries job_entries : list (scalar * value))
  : list (scalar * value) :=
  root_entries ++ [(SStr "jobs", VDict (jobs job_entries))].

Definition permissions (entries : list (string * string)) : scalar * value :=
  (SStr "permissions",
   VDict (map (fun e => (SStr (fst e), VStr (snd e))) entries)).

(** [jobs: {build: null}]. *)
Definition null_job : value :=
  VDict [(SStr "jobs", VDict [(SStr "build", VNone)])].

(** [jobs: {build: {steps: [{uses: 5}]}}]. *)
Definition numeric_uses : value :=
  VDict [(SStr "jobs",
          VDict [(SStr "build",
                  VDict [(SStr "steps",
                          VList [VDict [(SStr "uses", VScalar (SInt 5))]])])])].

End Sample.

(** ** Sample runs *)

Module SampleRun.

(** Three jobs: [lint] does not use the analyze action, [scan] uses it
    without permissions, [deep] uses it with [security-events: read]. *)
Definition three_jobs : list (scalar * value) :=
  [(SStr "lint",
    VDict [(SStr "steps", VList [Sample.step "actions/checkout@v4"]);
           Sample.permissions [("security-events", "write")]]);
   (SStr "scan", VDict [(SStr "steps", Sample.steps)]);
   (SStr "deep",
    VDict [(SStr "steps", Sample.steps);
           Sample.permissions [("security-events", "read")]])].

(** The same with the permissions of [lint] left out. *)
Definition three_jobs_bare_lint : list (scalar * value) :=
  [(SStr "lint",
    VDict [(SStr "steps", VList [Sample.step "actions/checkout@v4"])]);
   (SStr "scan", VDict [(SStr "steps", Sample.steps)]);
   (SStr "deep",
    VDict [(SStr "steps", Sample.steps);
           Sample.permissions [("security-events", "read")]])].

(** A CodeQL job followed by a job whose body is null. *)
Definition null_second_job : list (scalar * value) :=
  [(SStr "scan", VDict [(SStr "steps", Sample.steps)]);
   (SStr "build", VNone)].

(** A file holding the first end-to-end scenario of the specification. *)
Definition clean_file : Driver.workflow_file :=
  Driver.mkFile ".github/workflows/codeql.yml"
    (inr (VDict (Sample.workflow_entries []
                   [Sample.permissions [("security-events", "write");
                                        ("contents", "read")]])))
    (Some "jobs: {scan: {steps: [{uses: actions/checkout@v4}, {uses: github/codeql-action/analyze@v3}], permissions: {security-events: write, contents: read}}}")
    (Some "jobs: {scan: {steps: [{uses: actions/checkout@v4}, {uses: github/codeql-action/analyze@v3}], permissions: {security-events: write, contents: read}}}").

(** A file that does not parse. *)
Definition broken_file : Driver.workflow_file :=
  Driver.mkFile ".github/workflows/broken.yml"
    (inl "mapping values are not allowed here")
    (Some "jobs: a: b")
    (Some "jobs: a: b").

(** A file whose only job has a null body. *)
Definition null_job_file : Driver.workflow_file :=
  Driver.mkFile ".github/workflows/draft.yml"
    (inr Sample.null_job)
    (Some "jobs: {build: }")
    (Some "jobs: {build: }").

End SampleRun.

(** ** Facts about the Python fragment *)

Lemma bind_ok {A B : Type} (m : res A) (k : A -> res B) (b : B) :
  bind m k = Ok b -> exists a, m = Ok a /\ k a = Ok b.
Proof.
  destruct m as [a | e]; simpl; intros H.
  - exists a. split; [reflexivity | exact H].
  - discriminate H.
Qed.

Lemma prefix_app (n rest : string) : prefix n (n ++ rest)%string = true.
Proof.
  induction n as [| c n IH]; simpl.
  - destruct rest; reflexivity.
  - destruct (ascii_dec c c) as [_ | Hne]; [exact IH | now elim Hne].
Qed.

Lemma prefix_inv (n h : string) :
  prefix n h = true -> exists rest, h = (n ++ rest)%string.
Proof.
  revert h. induction n as [| c n IH]; intros h H.
  - exists h. reflexivity.
  - destruct h as [| c' h]; simpl in H; [discriminate H |].
    destruct (ascii_dec c c') as [<- | _]; [| discriminate H].
    destruct (IH h H) as [rest ->]. exists rest. reflexivity.
Qed.

Lemma is_substring_cons (n : string) (c : ascii) (h : string) :
  is_substring n (String c h) = prefix n (String c h) || is_substring n h.
Proof. reflexivity. Qed.

(** [is_substring] is Python's substring test: the needle occurs somewhere
    in the string. *)
Lemma is_substring_spec (n h : string) :
  is_substring n h = true <-> exists pre post, h = (pre ++ n ++ post)%string.
Proof.
  split.
  - induction h as [| c h IH]; intros H.
    + destruct n; [| discriminate H]. exists "", "". reflexivity.
    + rewrite is_substring_cons in H.
      apply orb_true_iff in H. destruct H as [H | H].
      * destruct (prefix_inv _ _ H) as [rest E]. exists "", rest. exact E.
      * destruct (IH H) as (pre & post & ->).
        exists (String c pre), post. reflexivity.
  - intros (pre & post & ->). induction pre as [| c pre IH].
    + change ("" ++ n ++ post)%string with (n ++ post)%string.
      destruct (n ++ post)%string eqn:E.
      * destruct n; [reflexivity | discriminate E].
      * rewrite is_substring_cons, <- E, prefix_app. reflexivity.
    + change (String c pre ++ n ++ post)%string
        with (String c (pre ++ n ++ post)%string).
      rewrite is_substring_cons, IH. apply orb_true_r.
Qed.

Lemma scalar_eqb_refl (k : scalar) : scalar_eqb k k = true.
Proof.
  destruct k as [| b | z | s]; simpl.
  - reflexivity.
  - destruct b; reflexivity.
  - apply Z.eqb_refl.
  - apply String.eqb_refl.
Qed.

Lemma scalar_eqb_sym (a b : scalar) : scalar_eqb a b = scalar_eqb b a.
Proof.
  destruct a as [| x | x | x], b as [| y | y | y]; simpl;
    try reflexivity; try apply Z.eqb_sym; apply String.eqb_sym.
Qed.

(** Only the string itself equals a string. *)
Lemma eq_str_true (v : value) (s : string) :
  eq_str v s = true <-> v = VStr s.
Proof.
  split.
  - destruct v as [[| b | z | t] | l | d]; simpl; try discriminate.
    intros H. apply String.eqb_eq in H. now subst.
  - intros ->. simpl. apply String.eqb_refl.
Qed.

Lemma dict_lookup_none_app (k : scalar) (a b : list (scalar * value)) :
  dict_lookup k (a ++ b) = None ->
  dict_lookup k a = None /\ dict_lookup k b = None.
Proof.
  induction a as [| [k' v'] a IH]; simpl; [now split |].
  destruct (scalar_eqb k' k); [discriminate | exact IH].
Qed.

(** In a mapping with unique keys, looking a key up returns the value stored
    with it. *)
Lemma dict_lookup_unique (a b : list (scalar * value)) (k : scalar) (v : value) :
  unique_keys (a ++ (k, v) :: b) = true ->
  dict_lookup k (a ++ (k, v) :: b) = Some v.
Proof.
  induction a as [| [k' v'] a IH]; simpl; intros H.
  - now rewrite scalar_eqb_refl.
  - apply andb_true_iff in H. destruct H as [Hk' Hu].
    unfold dict_mem in Hk'.
    destruct (dict_lookup k' (a ++ (k, v) :: b)) eqn:E; [discriminate |].
    apply dict_lookup_none_app in E. destruct E as [_ E]. simpl in E.
    rewrite scalar_eqb_sym.
    destruct (scalar_eqb k k'); [discriminate | now apply IH].
Qed.

(** ** The scan for CodeQL jobs *)

(** The scan only appends to its accumulator, so it can be run from the
    empty list and the result appended afterwards. *)
Lemma scan_steps_acc (name : scalar) (steps : list value) (acc : list scalar) :
  scan_steps name steps acc =
  (found <- scan_steps name steps [] ;; Ok (acc ++ found)).
Proof.
  induction steps as [| step rest IH]; simpl.
  - now rewrite app_nil_r.
  - destruct (step_uses_analyze step) as [[|] | e]; simpl; auto.
Qed.

Lemma scan_steps_found (name : scalar) (steps : list value) (found : list scalar) :
  scan_steps name steps [] = Ok found -> found = [] \/ found = [name].
Proof.
  induction steps as [| step rest IH]; simpl; intros H.
  - left. congruence.
  - destruct (step_uses_analyze step) as [[|] | e]; simpl in H.
    + right. congruence.
    + auto.
    + discriminate H.
Qed.

Lemma scan_job_acc (name : scalar) (cfg : value) (acc : list scalar) :
  scan_job name cfg acc = (found <- scan_job name cfg [] ;; Ok (acc ++ found)).
Proof.
  unfold scan_job.
  destruct (py_in "steps" cfg) as [[|] | e]; simpl; [| now rewrite app_nil_r | reflexivity].
  destruct (py_getitem cfg (SStr "steps")) as [steps | e]; simpl; [| reflexivity].
  destruct (py_iter steps) as [elements | e]; simpl; [| reflexivity].
  apply scan_steps_acc.
Qed.

Lemma scan_job_found (name : scalar) (cfg : value) (found : list scalar) :
  scan_job name cfg [] = Ok found -> found = [] \/ found = [name].
Proof.
  unfold scan_job.
  destruct (py_in "steps" cfg) as [[|] | e]; simpl; try discriminate.
  - destruct (py_getitem cfg (SStr "steps")) as [steps | e]; simpl; try discriminate.
    destruct (py_iter steps) as [elements | e]; simpl; try discriminate.
    apply scan_steps_found.
  - left. congruence.
Qed.

(** A job that the scan records has a mapping as its body: its body
    answered [in] and was subscripted with a string. *)
Lemma scan_job_dict (name : scalar) (cfg : value) :
  scan_job name cfg [] = Ok [name] -> exists cd, cfg = VDict cd.
Proof.
  unfold scan_job. destruct cfg as [[| b | z | s] | l | d]; simpl; try discriminate.
  - destruct (is_substring "steps" s); simpl; discriminate.
  - destruct (existsb _ l); simpl; discriminate.
  - intros _. now exists d.
Qed.

Lemma scan_jobs_acc (items : list (scalar * value)) (acc : list scalar) :
  scan_jobs items acc = (found <- scan_jobs items [] ;; Ok (acc ++ found)).
Proof.
  revert acc. induction items as [| [name cfg] rest IH]; intros acc; simpl.
  - now rewrite app_nil_r.
  - rewrite scan_job_acc.
    destruct (scan_job name cfg []) as [found | e]; simpl; [| reflexivity].
    rewrite (IH (acc ++ found)), (IH found).
    destruct (scan_jobs rest []) as [more | e]; simpl; [| reflexivity].
    now rewrite app_assoc.
Qed.

Lemma scan_jobs_cons (name : scalar) (cfg : value)
    (rest : list (scalar * value)) (names : list scalar) :
  scan_jobs ((name, cfg) :: rest) [] = Ok names ->
  exists found more,
    scan_job name cfg [] = Ok found /\ scan_jobs rest [] = Ok more /\
    names = found ++ more.
Proof.
  simpl. intros H. apply bind_ok in H. destruct H as (found & Hf & H).
  rewrite scan_jobs_acc in H. apply bind_ok in H. destruct H as (more & Hm & H).
  exists found, more. repeat split; congruence.
Qed.

(** Every recorded name is the key of an item whose own scan records it. *)
Lemma scan_jobs_in (items : list (scalar * value)) (names : list scalar)
    (name : scalar) :
  scan_jobs items [] = Ok names -> In name names ->
  exists before cfg after,
    items = before ++ (name, cfg) :: after /\ scan_job name cfg [] = Ok [name].
Proof.
  revert names. induction items as [| [k c] rest IH]; intros names H Hin.
  - simpl in H. injection H as <-. destruct Hin.
  - apply scan_jobs_cons in H. destruct H as (found & more & Hf & Hm & ->).
    apply in_app_or in Hin. destruct Hin as [Hin | Hin].
    + destruct (scan_job_found _ _ _ Hf) as [-> | ->]; [destruct Hin |].
      destruct Hin as [<- | []]. now exists [], c, rest.
    + destruct (IH more Hm Hin) as (before & cfg & after & -> & Hc).
      now exists ((k, c) :: before), cfg, after.
Qed.

Lemma dict_lookup_split (before after : list (scalar * value))
    (k : scalar) (v : value) :
  dict_lookup k (before ++ (k, v) :: after) <> None.
Proof.
  induction before as [| [k' v'] before IH]; simpl.
  - now rewrite scalar_eqb_refl.
  - destruct (scalar_eqb k' k); [discriminate | exact IH].
Qed.

(** With unique keys no name is recorded twice. *)
Lemma scan_jobs_nodup (items : list (scalar * value)) (names : list scalar) :
  unique_keys items = true -> scan_jobs items [] = Ok names -> NoDup names.
Proof.
  revert names. induction items as [| [k c] rest IH]; intros names Hu H.
  - simpl in H. injection H as <-. constructor.
  - apply scan_jobs_cons in H. destruct H as (found & more & Hf & Hm & ->).
    simpl in Hu. apply andb_true_iff in Hu. destruct Hu as [Hk Hu].
    specialize (IH more Hu Hm).
    destruct (scan_job_found _ _ _ Hf) as [-> | ->]; simpl; [exact IH |].
    constructor; [| exact IH].
    intros Hin. destruct (scan_jobs_in _ _ _ Hm Hin) as (b & cfg & a & -> & _).
    unfold dict_mem in Hk.
    destruct (dict_lookup k (b ++ (k, cfg) :: a)) eqn:E; [discriminate |].
    exact (dict_lookup_split _ _ _ _ E).
Qed.

(** With unique keys, subscripting the jobs with a recorded name gives the
    body of the job the scan recorded, which is a mapping. *)
Lemma scan_jobs_lookup (items : list (scalar * value)) (names : list scalar)
    (name : scalar) :
  unique_keys items = true -> scan_jobs items [] = Ok names -> In name names ->
  exists cd, dict_lookup name items = Some (VDict cd) /\
             scan_job name (VDict cd) [] = Ok [name].
Proof.
  intros Hu H Hin.
  destruct (scan_jobs_in _ _ _ H Hin) as (b & cfg & a & -> & Hc).
  destruct (scan_job_dict _ _ Hc) as [cd ->].
  exists cd. split; [now apply dict_lookup_unique | exact Hc].
Qed.

(** ** The permission checks *)

Lemma length_nonempty {A : Type} (l : list A) :
  l <> [] -> Nat.eqb (List.length l) 0 = false.
Proof. destruct l; [now intros H; elim H | reflexivity]. Qed.

Section Checks.

Variable format : value -> string.

Lemma check_root_dict (wd : list (scalar * value)) (violations : list string) :
  check_root (VDict wd) violations = Ok (violations ++ root_findings wd).
Proof.
  unfold check_root, root_findings. simpl.
  destruct (dict_lookup (SStr "permissions") wd) as [[k | l | pd] |]; simpl;
    try now rewrite app_nil_r.
  unfold dict_mem.
  destruct (dict_lookup (SStr "security-events") pd) as [granted |]; simpl;
    [| now rewrite app_nil_r].
  destruct (eq_str granted "write"); [reflexivity | now rewrite app_nil_r].
Qed.

Lemma check_job_dict (wd jd cd : list (scalar * value)) (name : scalar)
    (violations : list string) :
  dict_lookup (SStr "jobs") wd = Some (VDict jd) ->
  dict_lookup name jd = Some (VDict cd) ->
  check_job format (VDict wd) name violations =
  Ok (violations ++ job_findings format name cd).
Proof.
  intros Hj Hc. unfold check_job, job_findings. simpl.
  rewrite Hj. simpl. rewrite Hc. simpl.
  destruct (dict_lookup (SStr "permissions") cd) as [[k | l | pd] |]; simpl;
    try reflexivity.
  unfold dict_mem.
  destruct (dict_lookup (SStr "security-events") pd) as [actual |]; simpl;
    [| reflexivity].
  destruct (eq_str actual "write"); simpl; [now rewrite app_nil_r | reflexivity].
Qed.

Lemma check_jobs_app (w : value) (a b : list scalar) (violations : list string) :
  check_jobs format w (a ++ b) violations =
  (mid <- check_jobs format w a violations ;; check_jobs format w b mid).
Proof.
  revert violations. induction a as [| n a IH]; intros violations; simpl.
  - reflexivity.
  - destruct (check_job format w n violations) as [vs | e]; simpl; auto.
Qed.

(** No job-level message is the root-level one. *)
Lemma job_findings_not_root (name : scalar) (cd : list (scalar * value)) :
  ~ In ROOT_VIOLATION (job_findings format name cd).
Proof.
  unfold job_findings. intros Hin.
  destruct (dict_lookup (SStr "permissions") cd) as [[k | l | pd] |];
    try (destruct Hin as [Hin | []]; discriminate Hin).
  destruct (dict_lookup (SStr "security-events") pd) as [actual |];
    [destruct (eq_str actual "write") |];
    try (destruct Hin as [Hin | []]; discriminate Hin).
  destruct Hin.
Qed.

(** Checking recorded jobs never raises and appends the findings of each job
    in turn. *)
Lemma check_jobs_dict (wd jd : list (scalar * value)) (names : list scalar) :
  dict_lookup (SStr "jobs") wd = Some (VDict jd) ->
  (forall n, In n names -> exists cd, dict_lookup n jd = Some (VDict cd)) ->
  exists added,
    (forall violations,
        check_jobs format (VDict wd) names violations = Ok (violations ++ added)) /\
    ~ In ROOT_VIOLATION added.
Proof.
  intros Hj. induction names as [| n names IH]; intros Hall.
  - exists []. split; [| auto]. intros violations. simpl. now rewrite app_nil_r.
  - destruct (Hall n (or_introl eq_refl)) as [cd Hc].
    destruct IH as (added & Hrun & Hroot).
    { intros m Hm. apply Hall. now right. }
    exists (job_findings format n cd ++ added). split.
    + intros violations. simpl.
      rewrite (check_job_dict wd jd cd) by assumption. simpl.
      rewrite Hrun. now rewrite app_assoc.
    + intros Hin. apply in_app_or in Hin. destruct Hin as [Hin | Hin]; [| auto].
      exact (job_findings_not_root _ _ Hin).
Qed.

End Checks.

(** ** Workflows with CodeQL jobs

    The setting shared by the properties of the two checks: a document whose
    [jobs] is a mapping that the scan went through, recording [names]. *)

Section Workflow.

Variable format : value -> string.
Variables wd jd : list (scalar * value).
Variable names : list scalar.

Hypothesis Hjobs : dict_lookup (SStr "jobs") wd = Some (VDict jd).
Hypothesis Hunique : unique_keys jd = true.
Hypothesis Hscan : scan_jobs jd [] = Ok names.

Lemma validate_scanned :
  validate format (VDict wd) =
  if Nat.eqb (List.length names) 0 then Ok (true, [])
  else (violations <- check_jobs format (VDict wd) names (root_findings wd) ;;
        Ok (verdict violations)).
Proof.
  unfold validate, validate_from, no_jobs.
  assert (Ht : truthy (VDict wd) = true).
  { destruct wd; [discriminate Hjobs | reflexivity]. }
  rewrite Ht. simpl. unfold dict_mem. rewrite Hjobs. simpl.
  rewrite Hscan. simpl.
  destruct (Nat.eqb (List.length names) 0); [reflexivity |].
  rewrite check_root_dict. reflexivity.
Qed.

Lemma recorded_jobs_are_dicts (n : scalar) :
  In n names -> exists cd, dict_lookup n jd = Some (VDict cd).
Proof.
  intros Hin. destruct (scan_jobs_lookup jd names n Hunique Hscan Hin) as (cd & H & _).
  now exists cd.
Qed.

(** The violations of a document with CodeQL jobs: what precedes a job's
    turn, the job's own findings, what follows. *)
Lemma validate_split (before after : list scalar) (name : scalar)
    (cd : list (scalar * value)) :
  names = before ++ name :: after ->
  dict_lookup name jd = Some (VDict cd) ->
  exists earlier later,
    (start <- check_root (VDict wd) [] ;;
     check_jobs format (VDict wd) before start) = Ok earlier /\
    check_jobs format (VDict wd) after [] = Ok later /\
    validate format (VDict wd) =
    Ok (verdict (earlier ++ job_findings format name cd ++ later)).
Proof.
  intros Hn Hc.
  destruct (check_jobs_dict format wd jd before Hjobs) as (e & He & _).
  { intros n Hin. apply recorded_jobs_are_dicts. rewrite Hn. apply in_or_app. now left. }
  destruct (check_jobs_dict format wd jd after Hjobs) as (l & Hl & _).
  { intros n Hin. apply recorded_jobs_are_dicts. rewrite Hn.
    apply in_or_app. right. now right. }
  exists (root_findings wd ++ e), l. repeat split.
  - rewrite check_root_dict. simpl. apply He.
  - apply (Hl []).
  - rewrite validate_scanned. rewrite Hn at 1.
    rewrite length_app. simpl. rewrite Nat.add_succ_r. simpl.
    rewrite Hn, check_jobs_app, He. simpl.
    rewrite (check_job_dict format wd jd cd) by assumption. simpl.
    rewrite Hl. now rewrite <- !app_assoc.
Qed.



(** C2.  When the root [permissions] mapping maps [security-events] to
    exactly "write" and the document has a CodeQL job, the result starts with
    the root-level violation, followed by the job-level violations, none of
    which is the root-level one; the jobs' own permissions play no part. *)
Theorem root_grant_is_reported (pd : list (scalar * value)) :
  names <> [] ->
  dict_lookup (SStr "permissions") wd = Some (VDict pd) ->
  dict_lookup (SStr "security-events") pd = Some (VStr "write") ->
  exists job_level,
    check_jobs format (VDict wd) names [] = Ok job_level /\
    validate format (VDict wd) = Ok (false, ROOT_VIOLATION :: job_level) /\
    ~ In ROOT_VIOLATION job_level /\
    count_occ string_dec (ROOT_VIOLATION :: job_level) ROOT_VIOLATION = 1.
Proof.
  intros Hne Hp Hs.
  destruct (check_jobs_dict format wd jd names Hjobs recorded_jobs_are_dicts)
    as (added & Hrun & Hroot).
  exists added. repeat split.
  - apply (Hrun []).
  - rewrite validate_scanned.
    rewrite (length_nonempty names Hne), Hrun.
    unfold root_findings. rewrite Hp, Hs. reflexivity.
  - exact Hroot.
  - rewrite count_occ_cons_eq by reflexivity. f_equal.
    now apply count_occ_not_In.
Qed.

(** C10.  When the root [permissions] is not a mapping with
    [security-events] equal to the string "write" (it is absent, not a
    mapping, has no such entry, or has another value there), the result of a
    document with a CodeQL job consists of the job-level violations only and
    holds no root-level violation. *)
Theorem no_root_grant_no_root_violation :
  names <> [] ->
  (forall pd, dict_lookup (SStr "permissions") wd = Some (VDict pd) ->
              dict_lookup (SStr "security-events") pd <> Some (VStr "write")) ->
  exists job_level,
    check_jobs format (VDict wd) names [] = Ok job_level /\
    validate format (VDict wd) = Ok (verdict job_level) /\
    ~ In ROOT_VIOLATION job_level.
Proof.
  intros Hne Hroot.
  destruct (check_jobs_dict format wd jd names Hjobs recorded_jobs_are_dicts)
    as (added & Hrun & Hnot).
  exists added. repeat split.
  - apply (Hrun []).
  - rewrite validate_scanned.
    rewrite (length_nonempty names Hne), Hrun. simpl.
    assert (E : root_findings wd = []).
    { unfold root_findings.
      destruct (dict_lookup (SStr "permissions") wd) as [[k | l | pd] |];
        try reflexivity.
      specialize (Hroot pd eq_refl).
      destruct (dict_lookup (SStr "security-events") pd) as [granted |];
        [| reflexivity].
      destruct (eq_str granted "write") eqn:E; [| reflexivity].
      apply eq_str_true in E. subst. now elim Hroot. }
    rewrite E. reflexivity.
  - exact Hnot.
Qed.

End Workflow.

(** ** The scan on documents of the data model *)

Lemma step_uses_analyze_shape (step : value) :
  step_shape_ok step = true ->
  step_uses_analyze step = Ok (spec_analyze_step step).
Proof.
  destruct step as [k | l | sd]; simpl; try reflexivity.
  unfold step_uses_analyze. simpl. unfold dict_mem.
  destruct (dict_lookup (SStr "uses") sd) as [[[| b | z | u] | l | d] |]; simpl;
    try discriminate; reflexivity.
Qed.

Lemma scan_steps_shape (name : scalar) (steps : list value) (acc : list scalar) :
  forallb step_shape_ok steps = true ->
  scan_steps name steps acc =
  Ok (if existsb spec_analyze_step steps then acc ++ [name] else acc).
Proof.
  induction steps as [| step rest IH]; simpl; intros H; [reflexivity |].
  apply andb_true_iff in H. destruct H as [Hs Hr].
  rewrite (step_uses_analyze_shape step Hs). simpl.
  destruct (spec_analyze_step step); simpl; [reflexivity | now apply IH].
Qed.

Lemma scan_job_shape (name : scalar) (cfg : value) (acc : list scalar) :
  job_shape_ok cfg = true ->
  scan_job name cfg acc = Ok (if spec_codeql_job cfg then acc ++ [name] else acc).
Proof.
  destruct cfg as [k | l | cd]; simpl; try discriminate.
  unfold scan_job. simpl. unfold dict_mem.
  destruct (dict_lookup (SStr "steps") cd) as [[k | steps | d] |]; simpl;
    try discriminate; [| reflexivity].
  apply scan_steps_shape.
Qed.

Lemma scan_jobs_shape (jd : list (scalar * value)) (acc : list scalar) :
  forallb (fun item => job_shape_ok (snd item)) jd = true ->
  scan_jobs jd acc =
  Ok (acc ++ map fst (filter (fun item => spec_codeql_job (snd item)) jd)).
Proof.
  revert acc. induction jd as [| [name cfg] rest IH]; intros acc H; simpl.
  - now rewrite app_nil_r.
  - simpl in H. apply andb_true_iff in H. destruct H as [Hc Hr].
    rewrite (scan_job_shape name cfg acc Hc). simpl.
    destruct (spec_codeql_job cfg); simpl; rewrite (IH _ Hr); [| reflexivity].
    now rewrite <- app_assoc.
Qed.

Lemma filter_none {A : Type} (f : A -> bool) (l : list A) :
  existsb f l = false -> filter f l = [].
Proof.
  induction l as [| x l IH]; simpl; [reflexivity |].
  intros H. apply orb_false_iff in H. destruct H as [-> H]. auto.
Qed.

(** Every path through the function returns the pair of line 85 or the
    pair [(True, violations)] with the list it was started with. *)
Lemma validate_from_verdict (format : value -> string) (w : value)
    (r : bool * list string) :
  validate_from format w [] = Ok r -> r = verdict (snd r).
Proof.
  unfold validate_from.
  destruct (no_jobs w) as [[|] | e]; simpl; try discriminate.
  - intros [= <-]. reflexivity.
  - destruct (py_getitem w (SStr "jobs")) as [jobs | e]; simpl; try discriminate.
    destruct (py_items jobs) as [items | e]; simpl; try discriminate.
    destruct (scan_jobs items []) as [found | e]; simpl; try discriminate.
    destruct (Nat.eqb (List.length found) 0).
    + intros [= <-]. reflexivity.
    + destruct (check_root w []) as [vs | e]; simpl; try discriminate.
      destruct (check_jobs format w found vs) as [vs' | e]; simpl; try discriminate.
      intros [= <-]. reflexivity.
Qed.

(** ** Properties of the whole function *)

Section Properties.

Variable format : value -> string.

Lemma validate_without_jobs (w : value) :
  truthy w = false \/
  (exists wd, w = VDict wd /\ dict_lookup (SStr "jobs") wd = None) ->
  validate format w = Ok (true, []).
Proof.
  unfold validate, validate_from, no_jobs.
  intros [Hf | (wd & -> & Hj)].
  - rewrite Hf. reflexivity.
  - destruct (truthy (VDict wd)); simpl; [| reflexivity].
    unfold dict_mem. rewrite Hj. reflexivity.
Qed.

(** C7.  An empty or absent document, and a document without a [jobs] key,
    is valid and has no violation. *)
Theorem no_jobs_is_valid (w : value) :
  truthy w = false \/
  (exists wd, w = VDict wd /\ dict_lookup (SStr "jobs") wd = None) ->
  validate format w = Ok (true, []).
Proof. apply validate_without_jobs. Qed.

(** C5.  A document of the data model in which no step of any job has a
    [uses] string containing the analyze action is valid and has no
    violation, whatever its [permissions] are at either level. *)
Theorem no_analyze_step_is_valid (w : value) :
  shape_ok w = true ->
  spec_has_codeql_job w = false ->
  validate format w = Ok (true, []).
Proof.
  intros Hs Hn.
  destruct w as [k | l | wd];
    try (apply validate_without_jobs; left; simpl in Hs;
         now apply negb_true_iff in Hs).
  unfold shape_ok in Hs. unfold spec_has_codeql_job, jobs_of in Hn.
  destruct (dict_lookup (SStr "jobs") wd) as [[k | l | jd] |] eqn:Hj;
    try discriminate.
  - rewrite (validate_scanned format wd jd _ Hj (scan_jobs_shape jd [] Hs)).
    rewrite (filter_none _ _ Hn). reflexivity.
  - apply validate_without_jobs. right. now exists wd.
Qed.


(** C8.  Whenever the function returns, on a loaded document or after a
    failed load, the flag is true exactly when the list of violations is
    empty. *)
Theorem valid_iff_no_violation (loaded : string + value)
    (valid : bool) (violations : list string) :
  validate_codeql_permissions format loaded = Ok (valid, violations) ->
  (valid = true <-> violations = []).
Proof.
  destruct loaded as [e | w]; simpl.
  - intros [= <- <-]. split; discriminate.
  - intros H. apply validate_from_verdict in H. simpl in H. injection H as ->.
    simpl. destruct violations; simpl; split; congruence.
Qed.

End Properties.

(** ** The statements compute the function and leave the document alone *)

Section Purity.

Variable format : value -> string.

Lemma run_scan_steps (name : scalar) (steps : list value) (s : Stateful.state) :
  Stateful.scan_steps name steps s =
  match scan_steps name steps (Stateful.codeql_analyze_jobs s) with
  | Ok found => (Ok tt, Stateful.mkState (Stateful.workflow s) (Stateful.violations s) found)
  | Raise e => (Raise e, s)
  end.
Proof.
  induction steps as [| step rest IH]; simpl.
  - destruct s; reflexivity.
  - unfold Stateful.seq, Stateful.eval.
    destruct (step_uses_analyze step) as [[|] | e]; simpl; auto.
Qed.

Lemma run_scan_job (name : scalar) (cfg : value) (s : Stateful.state) :
  Stateful.scan_job name cfg s =
  match scan_job name cfg (Stateful.codeql_analyze_jobs s) with
  | Ok found => (Ok tt, Stateful.mkState (Stateful.workflow s) (Stateful.violations s) found)
  | Raise e => (Raise e, s)
  end.
Proof.
  unfold Stateful.scan_job, scan_job, Stateful.seq, Stateful.eval.
  destruct (py_in "steps" cfg) as [[|] | e]; simpl;
    [| destruct s; reflexivity | reflexivity].
  destruct (py_getitem cfg (SStr "steps")) as [steps | e]; simpl; [| reflexivity].
  destruct (py_iter steps) as [elements | e]; simpl; [| reflexivity].
  apply run_scan_steps.
Qed.

Lemma run_scan_jobs (items : list (scalar * value)) (s : Stateful.state) :
  Stateful.workflow (snd (Stateful.scan_jobs items s)) = Stateful.workflow s /\
  Stateful.violations (snd (Stateful.scan_jobs items s)) = Stateful.violations s /\
  match fst (Stateful.scan_jobs items s) with
  | Ok _ =>
      scan_jobs items (Stateful.codeql_analyze_jobs s) =
      Ok (Stateful.codeql_analyze_jobs (snd (Stateful.scan_jobs items s)))
  | Raise e => scan_jobs items (Stateful.codeql_analyze_jobs s) = Raise e
  end.
Proof.
  revert s. induction items as [| [name cfg] rest IH]; intros s; simpl.
  - auto.
  - unfold Stateful.seq. rewrite run_scan_job.
    destruct (scan_job name cfg (Stateful.codeql_analyze_jobs s)) as [found | e]; simpl.
    + apply (IH (Stateful.mkState (Stateful.workflow s) (Stateful.violations s) found)).
    + auto.
Qed.

Lemma run_check_root (s : Stateful.state) :
  Stateful.workflow (snd (Stateful.check_root s)) = Stateful.workflow s /\
  Stateful.codeql_analyze_jobs (snd (Stateful.check_root s)) = Stateful.codeql_analyze_jobs s /\
  match fst (Stateful.check_root s) with
  | Ok _ =>
      check_root (Stateful.workflow s) (Stateful.violations s) =
      Ok (Stateful.violations (snd (Stateful.check_root s)))
  | Raise e => check_root (Stateful.workflow s) (Stateful.violations s) = Raise e
  end.
Proof.
  unfold Stateful.check_root, check_root, Stateful.seq, Stateful.eval,
    Stateful.read_workflow.
  simpl.
  destruct (py_get (Stateful.workflow s) "permissions" (VDict [])) as [p | e]; simpl; auto.
  destruct (isinstance_dict p); simpl; auto.
  destruct (py_in "security-events" p) as [[|] | e]; simpl; auto.
  destruct (py_getitem p (SStr "security-events")) as [g | e]; simpl; auto.
  destruct (eq_str g "write"); simpl; auto.
Qed.

Lemma run_check_job (name : scalar) (s : Stateful.state) :
  Stateful.workflow (snd (Stateful.check_job format name s)) = Stateful.workflow s /\
  Stateful.codeql_analyze_jobs (snd (Stateful.check_job format name s)) =
  Stateful.codeql_analyze_jobs s /\
  match fst (Stateful.check_job format name s) with
  | Ok _ =>
      check_job format (Stateful.workflow s) name (Stateful.violations s) =
      Ok (Stateful.violations (snd (Stateful.check_job format name s)))
  | Raise e => check_job format (Stateful.workflow s) name (Stateful.violations s) = Raise e
  end.
Proof.
  unfold Stateful.check_job, check_job, Stateful.seq, Stateful.eval,
    Stateful.read_workflow.
  simpl.
  destruct (py_getitem (Stateful.workflow s) (SStr "jobs")) as [jobs | e]; simpl; auto.
  destruct (py_getitem jobs name) as [cfg | e]; simpl; auto.
  destruct (py_get cfg "permissions" (VDict [])) as [p | e]; simpl; auto.
  destruct (isinstance_dict p); simpl; auto.
  destruct (py_in "security-events" p) as [[|] | e]; simpl; auto.
  destruct (py_getitem p (SStr "security-events")) as [a | e]; simpl; auto.
  destruct (eq_str a "write"); simpl; auto.
Qed.

Lemma run_check_jobs (names : list scalar) (s : Stateful.state) :
  Stateful.workflow (snd (Stateful.check_jobs format names s)) = Stateful.workflow s /\
  match fst (Stateful.check_jobs format names s) with
  | Ok _ =>
      check_jobs format (Stateful.workflow s) names (Stateful.violations s) =
      Ok (Stateful.violations (snd (Stateful.check_jobs format names s)))
  | Raise e => check_jobs format (Stateful.workflow s) names (Stateful.violations s) = Raise e
  end.
Proof.
  revert s. induction names as [| name rest IH]; intros s; simpl.
  - auto.
  - unfold Stateful.seq. destruct (run_check_job name s) as (Hw & _ & Hr).
    destruct (Stateful.check_job format name s) as [[[] | e] s1]; simpl in *.
    + rewrite Hr. simpl. destruct (IH s1) as (Hw1 & Hr1).
      rewrite Hw in Hw1, Hr1. auto.
    + rewrite Hr. auto.
Qed.

Lemma run_validate (s : Stateful.state) :
  Stateful.workflow (snd (Stateful.validate format s)) = Stateful.workflow s /\
  fst (Stateful.validate format s) = validate format (Stateful.workflow s).
Proof.
  unfold Stateful.validate, validate, validate_from, Stateful.seq,
    Stateful.eval, Stateful.new_violations, Stateful.read_workflow,
    Stateful.read_violations, Stateful.new_codeql_analyze_jobs,
    Stateful.read_codeql_analyze_jobs, Stateful.ret.
  simpl.
  destruct (no_jobs (Stateful.workflow s)) as [[|] | e]; simpl; auto.
  destruct (py_getitem (Stateful.workflow s) (SStr "jobs")) as [jobs | e]; simpl; auto.
  destruct (py_items jobs) as [items | e]; simpl; auto.
  destruct (run_scan_jobs items (Stateful.mkState (Stateful.workflow s) [] []))
    as (Hw1 & Hv1 & Hr1).
  destruct (Stateful.scan_jobs items _) as [[[] | e] s1]; simpl in *;
    rewrite Hr1; simpl; auto.
  destruct (Nat.eqb (List.length (Stateful.codeql_analyze_jobs s1)) 0); simpl;
    [split; [exact Hw1 | now rewrite Hv1] |].
  destruct (run_check_root s1) as (Hw2 & Hc2 & Hr2).
  rewrite Hw1, Hv1 in Hr2.
  destruct (Stateful.check_root s1) as [[[] | e] s2]; simpl in *;
    rewrite Hr2; simpl; [| split; congruence].
  destruct (run_check_jobs (Stateful.codeql_analyze_jobs s1) s2) as (Hw3 & Hr3).
  rewrite Hw2, Hw1 in Hr3.
  destruct (Stateful.check_jobs format _ s2) as [[[] | e] s3]; simpl in *;
    rewrite Hr3; simpl; split; congruence.
Qed.


End Purity.

(** ** Classification of steps and jobs *)

Lemma scan_steps_first_hit (name : scalar) (before after : list value)
    (step : value) (acc : list scalar) :
  scan_steps name before [] = Ok [] ->
  step_uses_analyze step = Ok true ->
  scan_steps name (before ++ step :: after) acc = Ok (acc ++ [name]).
Proof.
  intros Hb Hs. induction before as [| b before IH]; simpl.
  - now rewrite Hs.
  - simpl in Hb. destruct (step_uses_analyze b) as [[|] | e]; simpl in *.
    + discriminate Hb.
    + now apply IH.
    + discriminate Hb.
Qed.

(** C6.  A step whose [uses] is a string is a CodeQL-analyze step exactly
    when the string contains "github/codeql-action/analyze"; a step that is
    not a mapping or has no [uses] is not one.  The action with or without a
    version suffix qualifies, the upload-sarif action does not.  Scanning a
    job's steps stops at the first match: whatever follows it, the job name
    is appended once; so a job is recorded at most once, and no name is
    recorded twice in the whole scan. *)
Theorem analyze_step_classification :
  (forall sd uses,
      dict_lookup (SStr "uses") sd = Some (VStr uses) ->
      exists hit,
        step_uses_analyze (VDict sd) = Ok hit /\
        (hit = true <->
         exists pre post, uses = (pre ++ ANALYZE_ACTION ++ post)%string)) /\
  (forall step, isinstance_dict step = false ->
                step_uses_analyze step = Ok false) /\
  (forall sd, dict_lookup (SStr "uses") sd = None ->
              step_uses_analyze (VDict sd) = Ok false) /\
  step_uses_analyze (Sample.step "github/codeql-action/analyze@v3") = Ok true /\
  step_uses_analyze (Sample.step "github/codeql-action/analyze") = Ok true /\
  step_uses_analyze (Sample.step "github/codeql-action/upload-sarif") = Ok false /\
  (forall name before step after acc,
      scan_steps name before [] = Ok [] ->
      step_uses_analyze step = Ok true ->
      scan_steps name (before ++ step :: after) acc = Ok (acc ++ [name])) /\
  (forall name cfg acc found,
      scan_job name cfg acc = Ok found ->
      found = acc \/ found = acc ++ [name]) /\
  (forall jd names,
      unique_keys jd = true -> scan_jobs jd [] = Ok names -> NoDup names).
Proof.
  split; [| split; [| split; [| split; [| split; [| split; [| split; [| split]]]]]]].
  - intros sd uses Hu. exists (is_substring ANALYZE_ACTION uses). split.
    + unfold step_uses_analyze. simpl. unfold dict_mem. now rewrite Hu.
    + apply is_substring_spec.
  - intros step Hd. unfold step_uses_analyze. now rewrite Hd.
  - intros sd Hu. unfold step_uses_analyze. simpl. unfold dict_mem.
    now rewrite Hu.
  - reflexivity.
  - reflexivity.
  - reflexivity.
  - intros name before step after acc. apply scan_steps_first_hit.
  - intros name cfg acc found H. rewrite scan_job_acc in H.
    apply bind_ok in H. destruct H as (own & Ho & H). injection H as <-.
    destruct (scan_job_found _ _ _ Ho) as [-> | ->];
      [left; apply app_nil_r | now right].
  - exact scan_jobs_nodup.
Qed.

(** ** The properties on sample documents *)



(** A root-level grant is reported first, here before the violation of a
    job whose permissions are the string [read-all]. *)
Lemma root_grant_is_reported_witness :
  validate Sample.format
    (VDict (Sample.workflow_entries
              [Sample.permissions [("security-events", "write")]]
              [(SStr "permissions", VStr "read-all")])) =
  Ok (false,
      [ROOT_VIOLATION;
       "VIOLATION: Job 'scan' does not have proper permissions configuration"]).
Proof.
  destruct (root_grant_is_reported Sample.format
              (Sample.workflow_entries
                 [Sample.permissions [("security-events", "write")]]
                 [(SStr "permissions", VStr "read-all")])
              (Sample.jobs [(SStr "permissions", VStr "read-all")])
              [SStr "scan"] eq_refl eq_refl eq_refl
              [(SStr "security-events", VStr "write")])
    as (job_level & Hc & Hv & _).
  - discriminate.
  - reflexivity.
  - reflexivity.
  - vm_compute in Hc. injection Hc as <-. exact Hv.
Defined.

(** A root mapping that grants [security-events: read] is not reported. *)
Lemma no_root_grant_no_root_violation_witness :
  validate Sample.format
    (VDict (Sample.workflow_entries
              [Sample.permissions [("security-events", "read")]]
              [Sample.permissions [("security-events", "write")]])) =
  Ok (true, []).
Proof.
  destruct (no_root_grant_no_root_violation Sample.format
              (Sample.workflow_entries
                 [Sample.permissions [("security-events", "read")]]
                 [Sample.permissions [("security-events", "write")]])
              (Sample.jobs [Sample.permissions [("security-events", "write")]])
              [SStr "scan"] eq_refl eq_refl eq_refl)
    as (job_level & Hc & Hv & _).
  - discriminate.
  - intros pd [= <-]. discriminate.
  - vm_compute in Hc. injection Hc as <-. exact Hv.
Defined.

(** A workflow that only uploads a SARIF file is valid even with a
    root-level grant. *)
Lemma no_analyze_step_is_valid_witness :
  validate Sample.format
    (VDict [Sample.permissions [("security-events", "write")];
            (SStr "jobs",
             VDict [(SStr "upload",
                     VDict [(SStr "steps",
                             VList [Sample.step "actions/checkout@v4";
                                    Sample.step "github/codeql-action/upload-sarif"])])])]) =
  Ok (true, []).
Proof.
  apply no_analyze_step_is_valid; reflexivity.
Defined.



Lemma no_jobs_is_valid_witness :
  validate Sample.format VNone = Ok (true, []) /\
  validate Sample.format
    (VDict [Sample.permissions [("security-events", "write")]]) = Ok (true, []).
Proof.
  split; apply no_jobs_is_valid.
  - left. reflexivity.
  - right. eexists. split; reflexivity.
Defined.

Lemma valid_iff_no_violation_witness :
  (false = true <->
   ["VIOLATION: Job 'scan' uses CodeQL analyze but lacks 'security-events' permission"]
   = []) /\
  (false = true <-> [parse_violation "mapping values are not allowed here"] = []).
Proof.
  split.
  - apply (valid_iff_no_violation Sample.format
             (inr (VDict (Sample.workflow_entries [] [])))).
    reflexivity.
  - apply (valid_iff_no_violation Sample.format
             (inl "mapping values are not allowed here")).
    reflexivity.
Defined.


Lemma analyze_step_classification_witness :
  exists hit,
    step_uses_analyze (Sample.step "github/codeql-action/analyze@v3") = Ok hit /\
    (hit = true <->
     exists pre post,
       "github/codeql-action/analyze@v3" = (pre ++ ANALYZE_ACTION ++ post)%string).
Proof.
  apply (proj1 analyze_step_classification
           [(SStr "uses", VStr "github/codeql-action/analyze@v3")]).
  reflexivity.
Defined.

(** ** Further properties of the validator *)

Lemma scan_jobs_app (a b : list (scalar * value)) (acc : list scalar) :
  scan_jobs (a ++ b) acc = (found <- scan_jobs a acc ;; scan_jobs b found).
Proof.
  revert acc. induction a as [| [name cfg] a IH]; intros acc; simpl.
  - reflexivity.
  - destruct (scan_job name cfg acc) as [found | e]; simpl; auto.
Qed.

(** The scan records the keys of the jobs that record themselves, in the
    order of the mapping. *)
Lemma scan_jobs_records (jd : list (scalar * value)) (names : list scalar) :
  scan_jobs jd [] = Ok names -> names = map fst (filter records jd).
Proof.
  revert names. induction jd as [| [k c] rest IH]; intros names H.
  - simpl in H. now injection H as <-.
  - apply scan_jobs_cons in H. destruct H as (found & more & Hf & Hm & ->).
    simpl. unfold records at 1. simpl. rewrite Hf.
    rewrite (IH more Hm).
    destruct (scan_job_found _ _ _ Hf) as [-> | ->]; reflexivity.
Qed.

Lemma job_findings_length (format : value -> string) (name : scalar)
    (cd : list (scalar * value)) :
  List.length (job_findings format name cd) <= 1.
Proof.
  unfold job_findings.
  destruct (dict_lookup (SStr "permissions") cd) as [[k | l | pd] |]; simpl; auto.
  destruct (dict_lookup (SStr "security-events") pd) as [actual |]; simpl; auto.
  destruct (eq_str actual "write"); simpl; auto.
Qed.

Lemma root_findings_length (wd : list (scalar * value)) :
  List.length (root_findings wd) <= 1.
Proof.
  unfold root_findings.
  destruct (dict_lookup (SStr "permissions") wd) as [[k | l | pd] |]; simpl; auto.
  destruct (dict_lookup (SStr "security-events") pd) as [granted |]; simpl; auto.
  destruct (eq_str granted "write"); simpl; auto.
Qed.

Lemma flat_map_length_le {A B : Type} (f : A -> list B) (l : list A) :
  (forall a, List.length (f a) <= 1) ->
  List.length (flat_map f l) <= List.length l.
Proof.
  intros Hf. induction l as [| a l IH]; simpl; [apply le_n |].
  rewrite length_app. specialize (Hf a).
  apply (Nat.add_le_mono _ 1 _ _ Hf IH).
Qed.

Lemma job_findings_nil (format : value -> string) (name : scalar)
    (cd : list (scalar * value)) :
  job_findings format name cd = [] <->
  exists pd, dict_lookup (SStr "permissions") cd = Some (VDict pd) /\
             dict_lookup (SStr "security-events") pd = Some (VStr "write").
Proof.
  unfold job_findings. split.
  - destruct (dict_lookup (SStr "permissions") cd) as [[k | l | pd] |];
      try discriminate.
    destruct (dict_lookup (SStr "security-events") pd) as [actual |] eqn:Hs;
      try discriminate.
    destruct (eq_str actual "write") eqn:E; try discriminate.
    apply eq_str_true in E. subst. intros _. now exists pd.
  - intros (pd & -> & ->). reflexivity.
Qed.

Lemma root_findings_nil (wd : list (scalar * value)) :
  root_findings wd = [] <->
  (forall pd, dict_lookup (SStr "permissions") wd = Some (VDict pd) ->
              dict_lookup (SStr "security-events") pd <> Some (VStr "write")).
Proof.
  unfold root_findings. split.
  - intros H pd Hp Hs. rewrite Hp, Hs in H. discriminate H.
  - intros H.
    destruct (dict_lookup (SStr "permissions") wd) as [[k | l | pd] |];
      try reflexivity.
    specialize (H pd eq_refl).
    destruct (dict_lookup (SStr "security-events") pd) as [granted |];
      [| reflexivity].
    destruct (eq_str granted "write") eqn:E; [| reflexivity].
    apply eq_str_true in E. subst. now elim H.
Qed.

Section Scanned.

Variable format : value -> string.
Variables wd jd : list (scalar * value).
Variable names : list scalar.

Hypothesis Hjobs : dict_lookup (SStr "jobs") wd = Some (VDict jd).
Hypothesis Hunique : unique_keys jd = true.
Hypothesis Hscan : scan_jobs jd [] = Ok names.

Lemma check_jobs_findings (some : list scalar) (violations : list string) :
  (forall n, In n some -> In n names) ->
  check_jobs format (VDict wd) some violations =
  Ok (violations ++ flat_map (recorded_findings format jd) some).
Proof.
  revert violations. induction some as [| n some IH]; intros violations Hin; simpl.
  - now rewrite app_nil_r.
  - destruct (recorded_jobs_are_dicts jd names Hunique Hscan n) as [cd Hc].
    { apply Hin. now left. }
    rewrite (check_job_dict format wd jd cd) by assumption. simpl.
    rewrite IH by (intros m Hm; apply Hin; now right).
    unfold recorded_findings at 2. rewrite Hc. now rewrite app_assoc.
Qed.

(** The result of a document with CodeQL jobs, in full: the root finding,
    then the findings of the recorded jobs in the order of the [jobs]
    mapping, at most one per job. *)
Theorem violations_in_job_order :
  names <> [] ->
  names = map fst (filter records jd) /\
  validate format (VDict wd) =
  Ok (verdict (root_findings wd ++
               flat_map (recorded_findings format jd) names)) /\
  List.length (root_findings wd ++
               flat_map (recorded_findings format jd) names)
  <= 1 + List.length names /\
  List.length names <= List.length jd.
Proof.
  intros Hne. split; [| split; [| split]].
  - now apply scan_jobs_records.
  - rewrite (validate_scanned format wd jd names Hjobs Hscan).
    rewrite (length_nonempty names Hne).
    rewrite check_jobs_findings by auto. reflexivity.
  - rewrite length_app.
    apply Nat.add_le_mono; [apply root_findings_length |].
    apply flat_map_length_le. intros n. unfold recorded_findings.
    destruct (dict_lookup n jd) as [[k | l | cd] |]; simpl; auto.
    apply job_findings_length.
  - rewrite (scan_jobs_records jd names Hscan), length_map.
    apply filter_length_le.
Qed.

(** A document with CodeQL jobs is valid exactly when the root does not
    grant [security-events: write] and every CodeQL job grants it to itself
    in a [permissions] mapping of its own. *)
Theorem valid_iff_scoped_grants :
  names <> [] ->
  (validate format (VDict wd) = Ok (true, []) <->
   (forall pd, dict_lookup (SStr "permissions") wd = Some (VDict pd) ->
               dict_lookup (SStr "security-events") pd <> Some (VStr "write")) /\
   (forall n, In n names -> grants_write jd n = true)).
Proof.
  intros Hne.
  rewrite (validate_scanned format wd jd names Hjobs Hscan).
  rewrite (length_nonempty names Hne).
  rewrite check_jobs_findings by auto. simpl.
  rewrite <- root_findings_nil.
  assert (Hjob : forall n, In n names ->
            (recorded_findings format jd n = [] <-> grants_write jd n = true)).
  { intros n Hin.
    destruct (recorded_jobs_are_dicts jd names Hunique Hscan n Hin) as [cd Hc].
    unfold recorded_findings, grants_write. rewrite Hc.
    rewrite job_findings_nil. split.
    - intros (pd & -> & ->). reflexivity.
    - destruct (dict_lookup (SStr "permissions") cd) as [[k | l | pd] |];
        try discriminate.
      destruct (dict_lookup (SStr "security-events") pd) as [granted |] eqn:Hs;
        try discriminate.
      intros E. apply eq_str_true in E. subst. now exists pd. }
  assert (Hall : flat_map (recorded_findings format jd) names = [] <->
                 forall n, In n names -> grants_write jd n = true).
  { clear Hne. revert Hjob. generalize names as l.
    induction l as [| n l IH]; intros Hj; simpl.
    - split; [intros _ m [] | reflexivity].
    - split.
      + intros E. apply app_eq_nil in E. destruct E as [En El].
        intros m [<- | Hm].
        * apply Hj; [now left | exact En].
        * apply IH; auto. intros k Hk. apply Hj. now right.
      + intros Hg.
        assert (En : recorded_findings format jd n = [])
          by (apply Hj; [now left | apply Hg; now left]).
        rewrite En. simpl. apply IH.
        * intros k Hk. apply Hj. now right.
        * intros k Hk. apply Hg. now right. }
  unfold verdict. split.
  - intros E. injection E as _ E. apply app_eq_nil in E.
    destruct E as [Er Ej]. split; [exact Er | now apply Hall].
  - intros [Er Hg]. apply Hall in Hg. now rewrite Er, Hg.
Qed.

(** A CodeQL job whose [permissions] mapping has no [security-events] key
    contributes exactly one violation, the one saying that the permission
    is lacking. *)
Theorem job_without_security_events
    (before after : list scalar) (name : scalar)
    (cd pd : list (scalar * value)) :
  names = before ++ name :: after ->
  dict_lookup name jd = Some (VDict cd) ->
  dict_lookup (SStr "permissions") cd = Some (VDict pd) ->
  dict_lookup (SStr "security-events") pd = None ->
  exists earlier later,
    (start <- check_root (VDict wd) [] ;;
     check_jobs format (VDict wd) before start) = Ok earlier /\
    check_jobs format (VDict wd) after [] = Ok later /\
    validate format (VDict wd) =
    Ok (false, earlier ++ [lacks_violation format name] ++ later).
Proof.
  intros Hn Hc Hp Hs.
  destruct (validate_split format wd jd names Hjobs Hunique Hscan
              before after name cd Hn Hc) as (earlier & later & H1 & H2 & H3).
  exists earlier, later. repeat split; try assumption.
  rewrite H3. unfold job_findings. rewrite Hp, Hs. unfold verdict.
  rewrite length_app. simpl. now rewrite Nat.add_succ_r.
Qed.

End Scanned.

(** *** Where exceptions come from *)

Lemma validate_enters_scan (format : value -> string)
    (wd : list (scalar * value)) (jobs : value) :
  dict_lookup (SStr "jobs") wd = Some jobs ->
  validate format (VDict wd) =
  (items <- py_items jobs ;;
   codeql_analyze_jobs <- scan_jobs items [] ;;
   if Nat.eqb (List.length codeql_analyze_jobs) 0 then Ok (true, [])
   else
     violations <- check_root (VDict wd) [] ;;
     violations <- check_jobs format (VDict wd) codeql_analyze_jobs violations ;;
     Ok (Nat.eqb (List.length violations) 0, violations)).
Proof.
  intros Hj. unfold validate, validate_from, no_jobs.
  assert (Ht : truthy (VDict wd) = true).
  { destruct wd; [discriminate Hj | reflexivity]. }
  rewrite Ht. simpl. unfold dict_mem. rewrite Hj. reflexivity.
Qed.

Lemma validate_scan_raises (format : value -> string)
    (wd jd : list (scalar * value)) (e : exn) :
  dict_lookup (SStr "jobs") wd = Some (VDict jd) ->
  scan_jobs jd [] = Raise e ->
  validate format (VDict wd) = Raise e.
Proof.
  intros Hj Hs. rewrite (validate_enters_scan format wd _ Hj). simpl.
  now rewrite Hs.
Qed.

(** A [jobs] entry that is not a mapping (null, a scalar, a sequence) makes
    the function raise [AttributeError]: it has no [items] method. *)
Theorem jobs_not_a_mapping_raises (format : value -> string)
    (wd : list (scalar * value)) (jobs : value) :
  dict_lookup (SStr "jobs") wd = Some jobs ->
  isinstance_dict jobs = false ->
  validate format (VDict wd) = Raise AttributeError.
Proof.
  intros Hj Hd. rewrite (validate_enters_scan format wd jobs Hj).
  destruct jobs as [k | l | d]; [reflexivity | reflexivity | discriminate Hd].
Qed.

(** The jobs are scanned in order and before any check: the first job whose
    scan raises decides the outcome, whatever the jobs after it and the
    permissions at either level are. *)
Theorem first_failing_job_raises (format : value -> string)
    (wd before after : list (scalar * value)) (name : scalar) (cfg : value)
    (found : list scalar) (e : exn) :
  dict_lookup (SStr "jobs") wd = Some (VDict (before ++ (name, cfg) :: after)) ->
  scan_jobs before [] = Ok found ->
  scan_job name cfg [] = Raise e ->
  validate format (VDict wd) = Raise e.
Proof.
  intros Hj Hb Hc. rewrite (validate_enters_scan format wd _ Hj). simpl.
  rewrite scan_jobs_app, Hb. simpl. rewrite scan_job_acc, Hc. reflexivity.
Qed.

(** Once the jobs are a mapping, the scan is the only place left where the
    function can raise: it raises exactly when the scan does, with the same
    exception, and the permission checks never raise. *)
Theorem raises_iff_scan_raises (format : value -> string)
    (wd jd : list (scalar * value)) (e : exn) :
  dict_lookup (SStr "jobs") wd = Some (VDict jd) ->
  unique_keys jd = true ->
  (validate format (VDict wd) = Raise e <-> scan_jobs jd [] = Raise e).
Proof.
  intros Hj Hu. destruct (scan_jobs jd []) as [names | e'] eqn:Hs.
  - rewrite (validate_scanned format wd jd names Hj Hs).
    destruct (Nat.eqb (List.length names) 0); [split; discriminate |].
    destruct (check_jobs_dict format wd jd names Hj
                (recorded_jobs_are_dicts jd names Hu Hs)) as (added & Hrun & _).
    rewrite Hrun. simpl. split; discriminate.
  - rewrite (validate_scan_raises format wd jd e' Hj Hs).
    split; intros [= ->]; reflexivity.
Qed.

(** *** Jobs that do not use the analyze action *)

Lemma flat_map_agree {A B : Type} (f g : A -> list B) (l : list A) :
  (forall a, In a l -> f a = g a) -> flat_map f l = flat_map g l.
Proof.
  induction l as [| a l IH]; simpl; intros H; [reflexivity |].
  rewrite (H a (or_introl eq_refl)), IH; [reflexivity |].
  intros x Hx. apply H. now right.
Qed.

Lemma dict_lookup_none_in (k n : scalar) (cfg : value) (l : list (scalar * value)) :
  dict_lookup k l = None -> In (n, cfg) l -> scalar_eqb n k = false.
Proof.
  induction l as [| [k' v'] l IH]; simpl; intros H Hin; [destruct Hin |].
  destruct (scalar_eqb k' k) eqn:E; [discriminate H |].
  destruct Hin as [[= <- <-] | Hin]; [exact E | now apply IH].
Qed.

Lemma unique_keys_suffix (a b : list (scalar * value)) :
  unique_keys (a ++ b) = true -> unique_keys b = true.
Proof.
  induction a as [| [k v] a IH]; simpl; [trivial |].
  intros H. apply andb_true_iff in H. now apply IH.
Qed.

(** In a mapping with unique keys, the key of any other item differs from
    the key of a given item. *)
Lemma unique_keys_other (a b : list (scalar * value)) (k n : scalar)
    (c cfg : value) :
  unique_keys (a ++ (k, c) :: b) = true ->
  In (n, cfg) a \/ In (n, cfg) b ->
  scalar_eqb k n = false.
Proof.
  intros Hu [Hin | Hin].
  - apply in_split in Hin. destruct Hin as (a1 & a2 & ->).
    rewrite <- app_assoc in Hu. apply unique_keys_suffix in Hu.
    simpl in Hu. apply andb_true_iff in Hu. destruct Hu as [Hn _].
    unfold dict_mem in Hn.
    destruct (dict_lookup n (a2 ++ (k, c) :: b)) eqn:E; [discriminate |].
    apply (dict_lookup_none_in n k c _ E).
    apply in_or_app. right. now left.
  - apply unique_keys_suffix in Hu. simpl in Hu.
    apply andb_true_iff in Hu. destruct Hu as [Hk _].
    unfold dict_mem in Hk.
    destruct (dict_lookup k b) eqn:E; [discriminate |].
    rewrite scalar_eqb_sym. exact (dict_lookup_none_in k n cfg b E Hin).
Qed.

Lemma dict_lookup_replace (a b : list (scalar * value)) (k n : scalar)
    (c c' : value) :
  scalar_eqb k n = false ->
  dict_lookup n (a ++ (k, c) :: b) = dict_lookup n (a ++ (k, c') :: b).
Proof.
  intros Hk. induction a as [| [k0 v0] a IH]; simpl.
  - now rewrite Hk.
  - now rewrite IH.
Qed.

Lemma unique_keys_replace (a b : list (scalar * value)) (k : scalar)
    (c c' : value) :
  unique_keys (a ++ (k, c) :: b) = unique_keys (a ++ (k, c') :: b).
Proof.
  induction a as [| [k0 v0] a IH]; simpl; [reflexivity |].
  rewrite IH. f_equal. f_equal. unfold dict_mem.
  destruct (scalar_eqb k k0) eqn:E.
  - assert (H : forall x, dict_lookup k0 (a ++ (k, x) :: b) <> None).
    { intros x. clear IH. induction a as [| [k1 v1] a IHa]; simpl.
      - now rewrite E.
      - destruct (scalar_eqb k1 k0); [discriminate | exact IHa]. }
    pose proof (H c) as Hc. pose proof (H c') as Hc'.
    destruct (dict_lookup k0 (a ++ (k, c) :: b));
      destruct (dict_lookup k0 (a ++ (k, c') :: b)); congruence.
  - now rewrite (dict_lookup_replace a b k k0 c c' E).
Qed.

(** The body of a job that the scan does not record plays no part: putting
    any other body that the scan does not record in its place leaves the
    outcome, result or exception, the same.  In particular the permissions
    of such a job are never looked at. *)
Theorem unrecorded_job_is_ignored (format : value -> string)
    (wd wd' a b : list (scalar * value)) (k : scalar) (c c' : value) :
  dict_lookup (SStr "jobs") wd = Some (VDict (a ++ (k, c) :: b)) ->
  dict_lookup (SStr "jobs") wd' = Some (VDict (a ++ (k, c') :: b)) ->
  dict_lookup (SStr "permissions") wd' = dict_lookup (SStr "permissions") wd ->
  unique_keys (a ++ (k, c) :: b) = true ->
  scan_job k c [] = Ok [] ->
  scan_job k c' [] = Ok [] ->
  validate format (VDict wd') = validate format (VDict wd).
Proof.
  intros Hj Hj' Hp Hu Hc Hc'.
  assert (Hu' : unique_keys (a ++ (k, c') :: b) = true)
    by (now rewrite (unique_keys_replace a b k c' c)).
  assert (Hs : scan_jobs (a ++ (k, c') :: b) [] = scan_jobs (a ++ (k, c) :: b) []).
  { rewrite !scan_jobs_app.
    destruct (scan_jobs a []) as [found | e]; simpl; [| reflexivity].
    rewrite (scan_job_acc k c), (scan_job_acc k c'), Hc, Hc'. reflexivity. }
  destruct (scan_jobs (a ++ (k, c) :: b) []) as [names | e] eqn:Hscan.
  - rewrite (validate_scanned format wd _ names Hj Hscan).
    rewrite (validate_scanned format wd' _ names Hj' Hs).
    destruct (Nat.eqb (List.length names) 0); [reflexivity |].
    rewrite (check_jobs_findings format wd _ names Hj Hu Hscan) by auto.
    rewrite (check_jobs_findings format wd' _ names Hj' Hu' Hs) by auto.
    assert (Hr : root_findings wd' = root_findings wd)
      by (unfold root_findings; now rewrite Hp).
    rewrite Hr. do 3 f_equal.
    apply flat_map_agree. intros n Hin. unfold recorded_findings.
    rewrite (dict_lookup_replace a b k n c' c); [reflexivity |].
    destruct (scan_jobs_in _ _ _ Hscan Hin) as (b1 & cfg & a1 & Heq & Hn).
    assert (Hmem : In (n, cfg) (a ++ (k, c) :: b))
      by (rewrite Heq; apply in_or_app; right; now left).
    apply in_app_or in Hmem. destruct Hmem as [Hmem | [Hmem | Hmem]].
    + apply (unique_keys_other a b k n c cfg Hu). now left.
    + injection Hmem as <- <-. rewrite Hc in Hn. discriminate Hn.
    + apply (unique_keys_other a b k n c cfg Hu). now right.
  - rewrite (validate_scan_raises format wd _ e Hj Hscan).
    now rewrite (validate_scan_raises format wd' _ e Hj' Hs).
Qed.

(** ** The driver *)

Section DriverFacts.

Variable format : value -> string.

Lemma print_violations_spec (violations : list string) (p : Driver.progress) :
  Driver.printed (Driver.print_violations violations p) =
  Driver.printed p ++ map Driver.violation_line violations /\
  Driver.total_violations (Driver.print_violations violations p) =
  Driver.total_violations p /\
  Driver.workflows_with_codeql (Driver.print_violations violations p) =
  Driver.workflows_with_codeql p.
Proof.
  revert p. induction violations as [| v rest IH]; intros p; simpl.
  - now rewrite app_nil_r.
  - destruct (IH (Driver.print (Driver.violation_line v) p)) as (H1 & H2 & H3).
    rewrite H1, H2, H3. simpl. now rewrite <- app_assoc.
Qed.

Lemma report_status_spec (file : Driver.workflow_file) (p : Driver.progress) :
  (exists line,
      Driver.printed (Driver.report_status file p) = Driver.printed p ++ [line]) /\
  Driver.total_violations (Driver.report_status file p) =
  Driver.total_violations p /\
  Driver.workflows_with_codeql (Driver.report_status file p) =
  Driver.workflows_with_codeql p +
  (if Driver.mentions_codeql file then 1 else 0).
Proof.
  unfold Driver.report_status, Driver.mentions_codeql.
  destruct (Driver.content file) as [text |]; simpl.
  - destruct (is_substring ANALYZE_ACTION text); simpl;
      (split; [eexists; reflexivity | split; [reflexivity |]]);
      [reflexivity | now rewrite Nat.add_0_r].
  - split; [eexists; reflexivity | split; [reflexivity |]].
    now rewrite Nat.add_0_r.
Qed.

Lemma report_violations_spec (file : Driver.workflow_file)
    (violations : list string) (p p' : Driver.progress) :
  Driver.report_violations file violations p = (p', None) ->
  (exists after,
      Driver.printed p' =
      Driver.printed p ++ map Driver.violation_line violations ++ after) /\
  Driver.total_violations p' =
  Driver.total_violations p + List.length violations /\
  Driver.workflows_with_codeql p' = Driver.workflows_with_codeql p.
Proof.
  unfold Driver.report_violations.
  destruct violations as [| v rest]; simpl.
  - destruct (Nat.ltb 0 (Driver.workflows_with_codeql p)).
    + destruct (Driver.content_again file) as [text |]; [| discriminate].
      destruct (is_substring ANALYZE_ACTION text); intros [= <-]; simpl.
      * split; [now exists [Driver.configured_line] |].
        now rewrite Nat.add_0_r.
      * split; [exists []; now rewrite app_nil_r |].
        now rewrite Nat.add_0_r.
    + intros [= <-]. split; [exists []; now rewrite app_nil_r |].
      now rewrite Nat.add_0_r.
  - intros [= <-].
    destruct (print_violations_spec rest
                (Driver.print (Driver.violation_line v)
                   (Driver.mkProgress (Driver.printed p)
                      (Driver.total_violations p + S (List.length rest))
                      (Driver.workflows_with_codeql p)))) as (H1 & H2 & H3).
    rewrite H1, H2, H3. simpl. split; [| auto].
    exists []. now rewrite app_nil_r, <- app_assoc.
Qed.

(** One iteration that does not abort the run: the validator returned, and
    the iteration printed the violations it returned and counted them. *)
Lemma report_file_spec (file : Driver.workflow_file) (p p' : Driver.progress) :
  Driver.report_file format file p = (p', None) ->
  (exists is_valid,
      validate_codeql_permissions format (Driver.loaded file) =
      Ok (is_valid, Driver.violations_of format file)) /\
  (exists line after,
      Driver.printed p' =
      Driver.printed p ++ line ::
      map Driver.violation_line (Driver.violations_of format file) ++ after) /\
  Driver.total_violations p' =
  Driver.total_violations p + List.length (Driver.violations_of format file) /\
  Driver.workflows_with_codeql p' =
  Driver.workflows_with_codeql p +
  (if Driver.mentions_codeql file then 1 else 0).
Proof.
  unfold Driver.report_file, Driver.violations_of.
  destruct (validate_codeql_permissions format (Driver.loaded file))
    as [[is_valid violations] | e]; [| discriminate].
  destruct (Driver.report_violations file violations
              (Driver.report_status file p)) as [q [e |]] eqn:E; [discriminate |].
  intros [= <-].
  destruct (report_violations_spec _ _ _ _ E) as ((after & H1) & H2 & H3).
  destruct (report_status_spec file p) as ((line & S1) & S2 & S3).
  split; [now exists is_valid |]. simpl. split; [| split].
  - exists line, (after ++ [""]).
    rewrite H1, S1. repeat rewrite <- app_assoc. reflexivity.
  - now rewrite H2, S2.
  - now rewrite H3, S3.
Qed.

Lemma report_files_app (a b : list Driver.workflow_file) (p : Driver.progress) :
  Driver.report_files format (a ++ b) p =
  match Driver.report_files format a p with
  | (p', None) => Driver.report_files format b p'
  | (p', Some e) => (p', Some e)
  end.
Proof.
  revert p. induction a as [| file a IH]; intros p; simpl; [reflexivity |].
  destruct (Driver.report_file format file p) as [q [e |]]; auto.
Qed.

(** A loop that runs to its end: every validator call returned, the lines
    printed before are still there, every violation has its line, and the
    counters hold the sums. *)
Lemma report_files_spec (files : list Driver.workflow_file)
    (p p' : Driver.progress) :
  Driver.report_files format files p = (p', None) ->
  (forall file, In file files ->
      exists is_valid,
        validate_codeql_permissions format (Driver.loaded file) =
        Ok (is_valid, Driver.violations_of format file)) /\
  (exists more, Driver.printed p' = Driver.printed p ++ more /\
      forall file violation,
        In file files -> In violation (Driver.violations_of format file) ->
        In (Driver.violation_line violation) more) /\
  Driver.total_violations p' =
  Driver.total_violations p +
  List.length (flat_map (Driver.violations_of format) files) /\
  Driver.workflows_with_codeql p' =
  Driver.workflows_with_codeql p +
  List.length (filter Driver.mentions_codeql files).
Proof.
  revert p. induction files as [| file rest IH]; intros p; simpl.
  - intros [= <-]. split; [intros f [] |]. split.
    + exists []. split; [now rewrite app_nil_r | intros f v []].
    + now rewrite !Nat.add_0_r.
  - destruct (Driver.report_file format file p) as [q [e |]] eqn:E;
      [discriminate |].
    intros Hrest.
    destruct (report_file_spec _ _ _ E) as (Hv & (line & after & Hp) & Ht & Hc).
    destruct (IH q Hrest) as (Hvs & (more & Hp' & Hin) & Ht' & Hc').
    split; [| split; [| split]].
    + intros f [<- | Hf]; auto.
    + exists ((line :: map Driver.violation_line
                         (Driver.violations_of format file) ++ after) ++ more).
      split; [now rewrite Hp', Hp, <- app_assoc |].
      intros f v [<- | Hf] Hv'.
      * apply in_or_app. left. right. apply in_or_app. left.
        now apply in_map.
      * apply in_or_app. right. eauto.
    + rewrite Ht', Ht, length_app. now rewrite Nat.add_assoc.
    + rewrite Hc', Hc.
      destruct (Driver.mentions_codeql file); simpl;
        rewrite <- Nat.add_assoc; reflexivity.
Qed.

(** When every validator call returns and every second read succeeds, the
    loop runs to its end. *)
Lemma report_files_runs (files : list Driver.workflow_file) (p : Driver.progress) :
  (forall file, In file files ->
      exists r, validate_codeql_permissions format (Driver.loaded file) = Ok r) ->
  (forall file, In file files -> Driver.content_again file <> None) ->
  exists p', Driver.report_files format files p = (p', None).
Proof.
  revert p. induction files as [| file rest IH]; intros p Hv Hr; simpl.
  - now exists p.
  - destruct (Hv file (or_introl eq_refl)) as [[is_valid violations] Hfile].
    assert (Hread := Hr file (or_introl eq_refl)).
    unfold Driver.report_file. rewrite Hfile.
    unfold Driver.report_violations.
    destruct (negb (Nat.eqb (List.length violations) 0)).
    + apply IH; intros f Hf; [apply Hv | apply Hr]; now right.
    + destruct (Nat.ltb 0 _).
      * destruct (Driver.content_again file) as [text |]; [| now elim Hread].
        destruct (is_substring ANALYZE_ACTION text);
          apply IH; intros f Hf; try (apply Hv; now right); apply Hr; now right.
      * apply IH; intros f Hf; [apply Hv | apply Hr]; now right.
Qed.

Lemma summary_spec (files : list Driver.workflow_file) (p : Driver.progress) :
  Driver.total_violations (Driver.summary files p) = Driver.total_violations p /\
  Driver.printed (Driver.summary files p) =
  Driver.printed p ++
  [Driver.string_mul "=" 70;
   "📊 VALIDATION SUMMARY:";
   "   • Total workflow files: " ++ Driver.show_count (List.length files);
   "   • Workflows with CodeQL analyze: " ++
   Driver.show_count (Driver.workflows_with_codeql p);
   "   • Total violations found: " ++
   Driver.show_count (Driver.total_violations p)]%string.
Proof.
  unfold Driver.summary, Driver.print. simpl. split; [reflexivity |].
  now rewrite <- !app_assoc.
Qed.

(** A returned pair with no violation carries the flag [True]. *)
Lemma no_violation_is_valid (loaded : string + value) (is_valid : bool) :
  validate_codeql_permissions format loaded = Ok (is_valid, []) ->
  is_valid = true.
Proof.
  destruct loaded as [e | w]; simpl; [discriminate |].
  intros H. apply validate_from_verdict in H. now injection H as ->.
Qed.

Lemma flat_map_nil {A B : Type} (f : A -> list B) (l : list A) :
  flat_map f l = [] <-> forall a, In a l -> f a = [].
Proof.
  induction l as [| a l IH]; simpl.
  - split; [intros _ x [] | reflexivity].
  - split.
    + intros E. apply app_eq_nil in E. destruct E as [Ea El].
      intros x [<- | Hx]; [exact Ea | now apply IH].
    + intros H. rewrite (H a (or_introl eq_refl)). simpl.
      apply IH. intros x Hx. apply H. now right.
Qed.

End DriverFacts.

Section DriverProperties.

Variable format : value -> string.
Variable workflows_dir : string.

(** When [main] reaches [sys.exit], the exit code is 0 or 1, and it is 0
    exactly when the workflows directory exists and the validator found
    every file valid, with no violation. *)
Theorem exit_code_zero_iff_clean (dir_exists : bool)
    (files : list Driver.workflow_file) (out : list string) (code : Z) :
  Driver.main format workflows_dir dir_exists files = (out, Driver.Exit code) ->
  (code = 0%Z \/ code = 1%Z) /\
  (code = 0%Z <->
   dir_exists = true /\
   forall file, In file files ->
     validate_codeql_permissions format (Driver.loaded file) = Ok (true, [])).
Proof.
  unfold Driver.main. destruct dir_exists; cbn [negb]; cbv zeta.
  - destruct (Driver.report_files format files (Driver.heading files))
      as [p [e |]] eqn:E; [discriminate |].
    destruct (report_files_spec format _ _ _ E) as (Hv & _ & Ht & _).
    destruct (summary_spec files p) as (Hs & _). rewrite Hs, Ht. simpl.
    destruct (List.length (flat_map (Driver.violations_of format) files))
      as [| n] eqn:El; simpl; intros [= _ <-].
    + split; [now left |]. split; [| reflexivity]. intros _. split; [reflexivity |].
      intros file Hin. destruct (Hv file Hin) as [is_valid Hfile].
      apply length_zero_iff_nil in El.
      rewrite (proj1 (flat_map_nil _ _) El file Hin) in Hfile.
      now rewrite (no_violation_is_valid format _ _ Hfile) in Hfile.
    + split; [now right |]. split; [discriminate |]. intros [_ Hall].
      assert (Hnil : flat_map (Driver.violations_of format) files = []).
      { apply flat_map_nil. intros file Hin. unfold Driver.violations_of.
        now rewrite (Hall file Hin). }
      rewrite Hnil in El. discriminate El.
  - intros [= _ <-]. split; [now right |]. split; [discriminate |].
    intros [H _]. discriminate H.
Qed.

(** An exception raised by the validator on one file ends the run: when the
    files before it were reported, [main] ends with that exception, and what
    it printed is what it had printed after those files: nothing for the
    file itself, nothing for the files after it, no summary, no exit
    code. *)
Theorem validator_exception_aborts_run
    (before after : list Driver.workflow_file) (file : Driver.workflow_file)
    (e : exn) :
  (forall f, In f before ->
     exists r, validate_codeql_permissions format (Driver.loaded f) = Ok r) ->
  (forall f, In f before -> Driver.content_again f <> None) ->
  validate_codeql_permissions format (Driver.loaded file) = Raise e ->
  exists p,
    Driver.report_files format before
      (Driver.heading (before ++ file :: after)) = (p, None) /\
    Driver.main format workflows_dir true (before ++ file :: after) =
    (Driver.printed p, Driver.Uncaught (Driver.ValidatorError e)).
Proof.
  intros Hv Hr He.
  destruct (report_files_runs format before
              (Driver.heading (before ++ file :: after)) Hv Hr) as [p Hp].
  exists p. split; [exact Hp |].
  unfold Driver.main. cbn [negb].
  rewrite report_files_app, Hp. simpl.
  unfold Driver.report_file. now rewrite He.
Qed.

Lemma main_exit_output (files : list Driver.workflow_file)
    (out : list string) (code : Z) :
  Driver.main format workflows_dir true files = (out, Driver.Exit code) ->
  exists p last,
    Driver.report_files format files (Driver.heading files) = (p, None) /\
    out = Driver.printed (Driver.summary files p) ++ [last].
Proof.
  unfold Driver.main. cbn [negb]. cbv zeta.
  destruct (Driver.report_files format files (Driver.heading files))
    as [p [e |]]; [discriminate |].
  intros H. exists p.
  destruct (Nat.eqb _ 0); injection H as <- _; eexists; split; reflexivity.
Qed.

(** When every validator call returns and every read of line 130 succeeds,
    [main] reaches [sys.exit]: a file that failed to load or whose text
    could not be read for the status line does not stop the run. *)
Theorem run_reaches_exit (dir_exists : bool) (files : list Driver.workflow_file) :
  (forall file, In file files ->
     exists r, validate_codeql_permissions format (Driver.loaded file) = Ok r) ->
  (forall file, In file files -> Driver.content_again file <> None) ->
  exists out code,
    Driver.main format workflows_dir dir_exists files = (out, Driver.Exit code).
Proof.
  intros Hv Hr. unfold Driver.main. destruct dir_exists; cbn [negb]; cbv zeta.
  - destruct (report_files_runs format files (Driver.heading files) Hv Hr)
      as [p Hp].
    rewrite Hp. destruct (Nat.eqb _ 0); eexists _, _; reflexivity.
  - eexists _, _. reflexivity.
Qed.

(** When [main] reaches [sys.exit] after the loop, every violation the
    validator returned for any file has been printed, on a line of its own
    with the marker in front. *)
Theorem every_violation_is_printed
    (files : list Driver.workflow_file) (out : list string) (code : Z) :
  Driver.main format workflows_dir true files = (out, Driver.Exit code) ->
  forall file violation,
    In file files -> In violation (Driver.violations_of format file) ->
    In (Driver.violation_line violation) out.
Proof.
  intros H file violation Hf Hv.
  destruct (main_exit_output files out code H) as (p & last & E & ->).
  destruct (report_files_spec format _ _ _ E) as (_ & (more & Hp & Hin) & _).
  destruct (summary_spec files p) as (_ & Hs). rewrite Hs, Hp.
  apply in_or_app. left. apply in_or_app. left.
  apply in_or_app. right. eauto.
Qed.

(** The summary that precedes the last line reports the number of files,
    the number of files whose text as read for the status line contains the
    name of the analyze action (whatever the validator made of the file),
    and the number of violations the validator returned over all files. *)
Theorem summary_reports_the_counts
    (files : list Driver.workflow_file) (out : list string) (code : Z) :
  Driver.main format workflows_dir true files = (out, Driver.Exit code) ->
  exists body last,
    out = body ++
      [Driver.string_mul "=" 70;
       "📊 VALIDATION SUMMARY:";
       "   • Total workflow files: " ++
       Driver.show_count (List.length files);
       "   • Workflows with CodeQL analyze: " ++
       Driver.show_count (List.length (filter Driver.mentions_codeql files));
       "   • Total violations found: " ++
       Driver.show_count
         (List.length (flat_map (Driver.violations_of format) files));
       last]%string.
Proof.
  intros H.
  destruct (main_exit_output files out code H) as (p & last & E & ->).
  destruct (report_files_spec format _ _ _ E) as (_ & _ & Ht & Hc).
  destruct (summary_spec files p) as (_ & Hs).
  simpl in Ht, Hc. rewrite Ht, Hc in Hs.
  exists (Driver.printed p), last. rewrite Hs, <- app_assoc. reflexivity.
Qed.

End DriverProperties.

(** ** The further properties on sample documents and runs *)

(** [lint] is skipped; [scan] and [deep] are reported in that order. *)
Lemma violations_in_job_order_witness :
  validate Sample.format (VDict [(SStr "jobs", VDict SampleRun.three_jobs)]) =
  Ok (false,
      ["VIOLATION: Job 'scan' uses CodeQL analyze but lacks 'security-events' permission";
       "VIOLATION: Job 'deep' has 'security-events: read' but should be 'security-events: write'"]).
Proof.
  destruct (violations_in_job_order Sample.format
              [(SStr "jobs", VDict SampleRun.three_jobs)] SampleRun.three_jobs
              [SStr "scan"; SStr "deep"] eq_refl eq_refl eq_refl)
    as (_ & Hv & _).
  - discriminate.
  - exact Hv.
Defined.

Lemma valid_iff_scoped_grants_witness :
  validate Sample.format
    (VDict (Sample.workflow_entries []
              [Sample.permissions [("security-events", "write");
                                   ("contents", "read")]])) =
  Ok (true, []).
Proof.
  apply (valid_iff_scoped_grants Sample.format
           (Sample.workflow_entries []
              [Sample.permissions [("security-events", "write");
                                   ("contents", "read")]])
           (Sample.jobs [Sample.permissions [("security-events", "write");
                                             ("contents", "read")]])
           [SStr "scan"] eq_refl eq_refl eq_refl).
  - discriminate.
  - split.
    + intros pd. discriminate.
    + intros n [<- | []]. reflexivity.
Defined.

Lemma job_without_security_events_witness :
  validate Sample.format
    (VDict (Sample.workflow_entries []
              [Sample.permissions [("contents", "read")]])) =
  Ok (false,
      ["VIOLATION: Job 'scan' uses CodeQL analyze but lacks 'security-events' permission"]).
Proof.
  destruct (job_without_security_events Sample.format
              (Sample.workflow_entries []
                 [Sample.permissions [("contents", "read")]])
              (Sample.jobs [Sample.permissions [("contents", "read")]])
              [SStr "scan"] eq_refl eq_refl eq_refl
              [] [] (SStr "scan") _ _ eq_refl eq_refl eq_refl eq_refl)
    as (earlier & later & He & Hl & Hv).
  vm_compute in He. injection He as <-.
  vm_compute in Hl. injection Hl as <-.
  exact Hv.
Defined.

(** [jobs:] with nothing after it. *)
Lemma jobs_not_a_mapping_raises_witness :
  validate Sample.format (VDict [(SStr "jobs", VNone)]) = Raise AttributeError.
Proof.
  apply (jobs_not_a_mapping_raises Sample.format _ VNone); reflexivity.
Defined.

(** The violation of [scan] is lost to the null body of [build]. *)
Lemma first_failing_job_raises_witness :
  validate Sample.format
    (VDict [(SStr "jobs", VDict SampleRun.null_second_job)]) = Raise TypeError.
Proof.
  apply (first_failing_job_raises Sample.format _
           [(SStr "scan", VDict [(SStr "steps", Sample.steps)])] []
           (SStr "build") VNone [SStr "scan"]); reflexivity.
Defined.

Lemma raises_iff_scan_raises_witness :
  validate Sample.format Sample.null_job = Raise TypeError.
Proof.
  apply (raises_iff_scan_raises Sample.format
           [(SStr "jobs", VDict [(SStr "build", VNone)])]
           [(SStr "build", VNone)] TypeError); reflexivity.
Defined.

(** The root-level style grant inside [lint], a job without the analyze
    action, changes nothing. *)
Lemma unrecorded_job_is_ignored_witness :
  validate Sample.format
    (VDict [(SStr "jobs", VDict SampleRun.three_jobs_bare_lint)]) =
  validate Sample.format (VDict [(SStr "jobs", VDict SampleRun.three_jobs)]).
Proof.
  apply (unrecorded_job_is_ignored Sample.format
           [(SStr "jobs", VDict SampleRun.three_jobs)]
           [(SStr "jobs", VDict SampleRun.three_jobs_bare_lint)]
           [] (skipn 1 SampleRun.three_jobs) (SStr "lint")
           (VDict [(SStr "steps", VList [Sample.step "actions/checkout@v4"]);
                   Sample.permissions [("security-events", "write")]])
           (VDict [(SStr "steps", VList [Sample.step "actions/checkout@v4"])]));
    reflexivity.
Defined.

(** A run over the clean file exits with 0; the validator found it valid. *)
Lemma exit_code_zero_iff_clean_witness :
  snd (Driver.main Sample.format ".github/workflows" true
         [SampleRun.clean_file]) = Driver.Exit 0 /\
  validate_codeql_permissions Sample.format
    (Driver.loaded SampleRun.clean_file) = Ok (true, []).
Proof.
  split; [reflexivity |].
  apply (proj1 (proj2 (exit_code_zero_iff_clean Sample.format
                         ".github/workflows" true [SampleRun.clean_file]
                         (fst (Driver.main Sample.format ".github/workflows"
                                 true [SampleRun.clean_file]))
                         0 eq_refl)) eq_refl).
  left. reflexivity.
Defined.

(** The run stops at the file with the null job body; the clean file before
    it was reported, the file after it is not looked at. *)
Lemma validator_exception_aborts_run_witness :
  exists p,
    Driver.report_files Sample.format [SampleRun.clean_file]
      (Driver.heading [SampleRun.clean_file; SampleRun.null_job_file;
                       SampleRun.broken_file]) = (p, None) /\
    Driver.main Sample.format ".github/workflows" true
      [SampleRun.clean_file; SampleRun.null_job_file; SampleRun.broken_file] =
    (Driver.printed p, Driver.Uncaught (Driver.ValidatorError TypeError)).
Proof.
  apply (validator_exception_aborts_run Sample.format ".github/workflows"
           [SampleRun.clean_file] [SampleRun.broken_file]
           SampleRun.null_job_file TypeError).
  - intros f [<- | []]. eexists. reflexivity.
  - intros f [<- | []]. discriminate.
  - reflexivity.
Defined.

(** A file that does not parse is reported and the run goes on. *)
Lemma run_reaches_exit_witness :
  exists out code,
    Driver.main Sample.format ".github/workflows" true
      [SampleRun.broken_file; SampleRun.clean_file] = (out, Driver.Exit code).
Proof.
  apply run_reaches_exit.
  - intros f [<- | [<- | []]]; eexists; reflexivity.
  - intros f [<- | [<- | []]]; discriminate.
Defined.

Lemma every_violation_is_printed_witness :
  In (Driver.violation_line
        (parse_violation "mapping values are not allowed here"))
     (fst (Driver.main Sample.format ".github/workflows" true
             [SampleRun.broken_file; SampleRun.clean_file])).
Proof.
  apply (every_violation_is_printed Sample.format ".github/workflows"
           [SampleRun.broken_file; SampleRun.clean_file] _ 1 eq_refl
           SampleRun.broken_file).
  - left. reflexivity.
  - left. reflexivity.
Defined.

Lemma summary_reports_the_counts_witness :
  exists body last,
    fst (Driver.main Sample.format ".github/workflows" true
           [SampleRun.broken_file; SampleRun.clean_file]) =
    body ++
      ["======================================================================";
       "📊 VALIDATION SUMMARY:";
       "   • Total workflow files: 2";
       "   • Workflows with CodeQL analyze: 1";
       "   • Total violations found: 1";
       last]%string.
Proof.
  exact (summary_reports_the_counts Sample.format ".github/workflows"
           [SampleRun.broken_file; SampleRun.clean_file] _ 1 eq_refl).
Defined.
